(** * go-loggly: the buffering and flushing client of [loggly.go]

    A shallow embedding of the Go package [loggly] and the properties of
    its grouped buffer, its flush pass and its submission entry points.

    Conventions of the embedding.
    - A Go [string] is a [string] (a sequence of 8-bit characters); a
      [[]byte] is a [list byte].
    - [map[string]T] is a [gmap string T]; [len] of a map is [size].
    - [interface{}] values are the inductive [Value].
    - [int], [int64] and [Level] are [Z].
    - What the package gets from outside (the JSON encoder, the URL parser
      behind [http.NewRequest], the HTTP round trip) is a variable of the
      section; the clock reading and the order in which [range] walks a map
      are arguments of the functions that consult them. *)

From Stdlib Require Import ZArith List Strings.Ascii Strings.String Strings.Byte.
From Stdlib Require Import DecimalString.
From stdpp Require Import gmap strings list fin_maps sorting.

Set Warnings "-register-all".

Open Scope string_scope.
Open Scope list_scope.
Open Scope Z_scope.

Module loggly.

(** ** Values *)

#[global] Instance byte_eq_decision : EqDecision byte := Byte.byte_eq_dec.

(** The error values of Go, by their message. [None] in an
    [option error] is the [nil] error. *)
Definition error := string.

(** The dynamic values a [map[string]interface{}] record can hold. [VChan]
    stands for the kinds that [encoding/json] refuses. *)
Inductive Value :=
  | VNil
  | VBool (b : bool)
  | VInt (n : Z)
  | VString (s : string)
  | VArray (vs : list Value)
  | VObject (kvs : list (string * Value))
  | VChan (id : nat).

(** The type assertion [v.(string)]: [None] is the run-time panic. *)
Definition assert_string (v : Value) : option string :=
  match v with
  | VString s => Some s
  | _ => None
  end.

(** ** Package constants *)

Definition Version : string := "0.4.3".

Definition api : string := "https://logs-01.loggly.com/bulk/{token}".

Definition nl : list byte := [x0a].

Definition Level := Z.

Definition DEBUG : Level := 0.
Definition INFO : Level := 1.
Definition NOTICE : Level := 2.
Definition WARNING : Level := 3.
Definition ERROR : Level := 4.
Definition CRITICAL : Level := 5.
Definition ALERT : Level := 6.
Definition EMERGENCY : Level := 7.

(** Nanoseconds in [time.Millisecond] and in [time.Second]. *)
Definition Millisecond : Z := 1000000.
Definition Second : Z := 1000000000.

(** ** The client *)

(** [Writer] is the optional mirror: [None] is the nil writer, [Some out]
    a writer that has received [out] so far. The embedded mutex has no
    field here: the sequential functions below run without contention, and
    the interleaving model further down puts each locked region in one
    step. *)
Record Client := mkClient {
  Writer : option (list byte);
  Level_ : Level;
  BufferSize : Z;
  FlushInterval : Z;
  Endpoint : string;
  Token : string;
  Defaults : gmap string Value;
  buffer : gmap string (list (list byte));
  tags : list string;
  MinimalLog : bool
}.

Definition set_buffer (c : Client) (b : gmap string (list (list byte))) : Client :=
  mkClient (Writer c) (Level_ c) (BufferSize c) (FlushInterval c) (Endpoint c)
           (Token c) (Defaults c) b (tags c) (MinimalLog c).

Definition set_Writer (c : Client) (w : option (list byte)) : Client :=
  mkClient w (Level_ c) (BufferSize c) (FlushInterval c) (Endpoint c)
           (Token c) (Defaults c) (buffer c) (tags c) (MinimalLog c).

Definition set_tags (c : Client) (ts : list string) : Client :=
  mkClient (Writer c) (Level_ c) (BufferSize c) (FlushInterval c) (Endpoint c)
           (Token c) (Defaults c) (buffer c) ts (MinimalLog c).

(** [c.buffer[k]]: a missing key reads as the nil slice. *)
Definition queue (b : gmap string (list (list byte))) (k : string) : list (list byte) :=
  default [] (b !! k).

(** [len(c.buffer)] *)
Definition len_buffer (b : gmap string (list (list byte))) : Z :=
  Z.of_nat (size b).

(** [fmt.Fprintf(c.Writer, ...)] when the writer is not nil. *)
Definition Fprint (w : option (list byte)) (out : list byte) : option (list byte) :=
  match w with
  | Some sofar => Some (sofar ++ out)
  | None => None
  end.

(** ** merge *)

(** The inner loop of [merge]: [for k, v := range msg { a[k] = v }]. *)
Definition merge1 (a msg : gmap string Value) : gmap string Value :=
  map_fold (fun k v acc => <[k := v]> acc) a msg.

(** [merge(a, others...)]: every key of every map of [others] is written
    into [a], in the order of [others]. *)
Definition merge (a : gmap string Value) (others : list (gmap string Value)) : gmap string Value :=
  fold_left merge1 others a.

(** ** Send and Write *)

Inductive Result :=
  | Nil
  | Err (e : error)
  | Panic.

(** What a call leaves behind: its return value, the client, and whether
    it ran [go c.Flush()]. *)
Record Return := mkReturn {
  ret : Result;
  after : Client;
  go_Flush : bool
}.

Section Program.

(** [json.Marshal] on a record. *)
Variable Marshal : gmap string Value -> list byte + error.

(** The first block of [Send]: what it does to the caller's map before
    the record is routed and encoded. [now] is [time.Now().UnixNano()]. *)
Definition prepare (now : Z) (c : Client) (msg : gmap string Value) : gmap string Value :=
  if MinimalLog c then
    delete "line" (delete "hostname" (delete "func" (delete "filename" msg)))
  else
    let msg :=
      match msg !! "timestamp" with
      | Some _ => msg
      | None => <["timestamp" := VInt (Z.quot now Millisecond)]> msg
      end in
    merge msg [Defaults c].

(** The second block of [Send]: the group key [tagbuffer] of the prepared
    record; [None] when the type assertion panics. *)
Definition tagbuffer_of (msg : gmap string Value) : option string :=
  match msg !! "partnerID" with
  | Some val => assert_string val
  | None => Some "notag"
  end.

(** [Send]: the pair of the caller's map as the call leaves it and of what
    the call returns. *)
Definition Send (now : Z) (c : Client) (msg : gmap string Value) : gmap string Value * Return :=
  let msg := prepare now c msg in
  match tagbuffer_of msg with
  | None => (msg, mkReturn Panic c false)
  | Some tagbuffer =>
      match Marshal msg with
      | inr err => (msg, mkReturn (Err err) c false)
      | inl json =>
          let w := Fprint (Writer c) (json ++ nl) in
          let b := <[tagbuffer := queue (buffer c) tagbuffer ++ [json]]> (buffer c) in
          let c := set_buffer (set_Writer c w) b in
          (msg, mkReturn Nil c (BufferSize c <=? len_buffer b))
      end
  end.

(** [Write]: the byte count, the error and the rest. *)
Definition Write (c : Client) (b : list byte) : Z * Return :=
  let w := Fprint (Writer c) b in
  let buf := <["notag" := queue (buffer c) "notag" ++ [b]]> (buffer c) in
  let c := set_buffer (set_Writer c w) buf in
  (Z.of_nat (length b), mkReturn Nil c (BufferSize c <=? len_buffer buf)).

(** ** The severity wrappers *)

Definition Debug (now : Z) (c : Client) (t : string) (props : list (gmap string Value)) : Return :=
  if Level_ c >? DEBUG then mkReturn Nil c false
  else
    let msg := <["component" := VString t]> {["level" := VString "debug"]} in
    (Send now c (merge msg props)).2.

Definition Info (now : Z) (c : Client) (t : string) (props : list (gmap string Value)) : Return :=
  if Level_ c >? INFO then mkReturn Nil c false
  else
    let msg := <["component" := VString t]> {["level" := VString "info"]} in
    (Send now c (merge msg props)).2.

Definition Notice (now : Z) (c : Client) (t : string) (props : list (gmap string Value)) : Return :=
  if Level_ c >? NOTICE then mkReturn Nil c false
  else
    let msg := <["component" := VString t]> {["level" := VString "notice"]} in
    (Send now c (merge msg props)).2.

Definition Warn (now : Z) (c : Client) (t : string) (props : list (gmap string Value)) : Return :=
  if Level_ c >? WARNING then mkReturn Nil c false
  else
    let msg := <["component" := VString t]> {["level" := VString "warning"]} in
    (Send now c (merge msg props)).2.

Definition Error (now : Z) (c : Client) (t : string) (props : list (gmap string Value)) : Return :=
  if Level_ c >? ERROR then mkReturn Nil c false
  else
    let msg := <["component" := VString t]> {["level" := VString "error"]} in
    (Send now c (merge msg props)).2.

Definition Critical (now : Z) (c : Client) (t : string) (props : list (gmap string Value)) : Return :=
  if Level_ c >? CRITICAL then mkReturn Nil c false
  else
    let msg := <["component" := VString t]> {["level" := VString "critical"]} in
    (Send now c (merge msg props)).2.

Definition Alert (now : Z) (c : Client) (t : string) (props : list (gmap string Value)) : Return :=
  if Level_ c >? ALERT then mkReturn Nil c false
  else
    let msg := <["component" := VString t]> {["level" := VString "alert"]} in
    (Send now c (merge msg props)).2.

Definition Emergency (now : Z) (c : Client) (t : string) (props : list (gmap string Value)) : Return :=
  if Level_ c >? EMERGENCY then mkReturn Nil c false
  else
    let msg := <["component" := VString t]> {["level" := VString "emergency"]} in
    (Send now c (merge msg props)).2.

(** The eight wrappers by name, to state a property of all of them. *)
Inductive Wrapper :=
  | WDebug | WInfo | WNotice | WWarn | WError | WCritical | WAlert | WEmergency.

Definition severity (w : Wrapper) : Level :=
  match w with
  | WDebug => DEBUG
  | WInfo => INFO
  | WNotice => NOTICE
  | WWarn => WARNING
  | WError => ERROR
  | WCritical => CRITICAL
  | WAlert => ALERT
  | WEmergency => EMERGENCY
  end.

(** The [level] string each wrapper puts in its record. *)
Definition level_name (w : Wrapper) : string :=
  match w with
  | WDebug => "debug"
  | WInfo => "info"
  | WNotice => "notice"
  | WWarn => "warning"
  | WError => "error"
  | WCritical => "critical"
  | WAlert => "alert"
  | WEmergency => "emergency"
  end.

Definition call (w : Wrapper) : Z -> Client -> string -> list (gmap string Value) -> Return :=
  match w with
  | WDebug => Debug
  | WInfo => Info
  | WNotice => Notice
  | WWarn => Warn
  | WError => Error
  | WCritical => Critical
  | WAlert => Alert
  | WEmergency => Emergency
  end.


(** ** Tags *)

(** [Tag]: each tag is appended in turn. *)
Definition Tag (c : Client) (ts : list string) : Client :=
  set_tags c (fold_left (fun acc tag => acc ++ [tag]) ts (tags c)).

(** [strings.Join] *)
Fixpoint strings_Join (elems : list string) (sep : string) : string :=
  match elems with
  | [] => EmptyString
  | [e] => e
  | e :: rest => e +:+ sep +:+ strings_Join rest sep
  end.

Definition tagsList (c : Client) : string :=
  strings_Join (tags c) ",".

(** ** New *)

Fixpoint drop_string (n : nat) (s : string) : string :=
  match n, s with
  | O, _ => s
  | S n, String _ s => drop_string n s
  | S _, EmptyString => EmptyString
  end.

(** [strings.Replace(s, old, new, 1)]: the first occurrence of [old], if
    there is one, becomes [new]. *)
Fixpoint Replace_first (s old new : string) : string :=
  if String.prefix old s then new +:+ drop_string (String.length old) s
  else
    match s with
    | EmptyString => EmptyString
    | String a s => String a (Replace_first s old new)
    end.

(** [New]. [Hostname] is what [os.Hostname()] returned. The goroutine that
    [New] starts ([c.start()]) is [start] below. *)
Definition New (Hostname : string + error) (token : string) (bufferSize : Z)
    (minLog : bool) (tags : list string) : Client :=
  let defaults : gmap string Value :=
    match Hostname with
    | inl host => <["hostname" := VString host]> ∅
    | inr _ => ∅
    end in
  let c := mkClient None INFO bufferSize (5 * Second)
             (Replace_first api "{token}" token) token defaults ∅ [] minLog in
  Tag c tags.

(** ** Flush *)

(** [bytes.Join] *)
Fixpoint bytes_Join (s : list (list byte)) (sep : list byte) : list byte :=
  match s with
  | [] => []
  | [b] => b
  | b :: rest => b ++ sep ++ bytes_Join rest sep
  end.

Definition chr (n : Z) : ascii := ascii_of_N (Z.to_N n).

(** The conversion [string(n)] of an integer: the UTF-8 encoding of the
    code point [n], and of U+FFFD when [n] is not a valid code point. *)
Definition string_of_int (n : Z) : string :=
  if (n <? 0) || (0x10FFFF <? n) || ((0xD800 <=? n) && (n <=? 0xDFFF)) then
    String (chr 0xEF) (String (chr 0xBF) (String (chr 0xBD) EmptyString))
  else if n <? 0x80 then
    String (chr n) EmptyString
  else if n <? 0x800 then
    String (chr (Z.lor 0xC0 (Z.shiftr n 6)))
      (String (chr (Z.lor 0x80 (Z.land n 0x3F))) EmptyString)
  else if n <? 0x10000 then
    String (chr (Z.lor 0xE0 (Z.shiftr n 12)))
      (String (chr (Z.lor 0x80 (Z.land (Z.shiftr n 6) 0x3F)))
        (String (chr (Z.lor 0x80 (Z.land n 0x3F))) EmptyString))
  else
    String (chr (Z.lor 0xF0 (Z.shiftr n 18)))
      (String (chr (Z.lor 0x80 (Z.land (Z.shiftr n 12) 0x3F)))
        (String (chr (Z.lor 0x80 (Z.land (Z.shiftr n 6) 0x3F)))
          (String (chr (Z.lor 0x80 (Z.land n 0x3F))) EmptyString))).

(** [len] of a byte slice, and of a slice of them. *)
Definition len (b : list byte) : Z := Z.of_nat (length b).

Definition len_queue (q : list (list byte)) : Z := Z.of_nat (length q).

(** An [http.Request], as far as [Flush] fills it in. [Header] keeps the
    pairs in the order of the [Header.Add] calls. *)
Record Request := mkRequest {
  Method : string;
  URL : string;
  Header : list (string * string);
  Body : list byte
}.

Definition Header_Add (req : Request) (key value : string) : Request :=
  mkRequest (Method req) (URL req) (Header req ++ [(key, value)]) (Body req).

(** [req.Header.Values]: the values added under the key, in order. *)
Definition Header_Values (req : Request) (key : string) : list string :=
  (filter (fun kv : string * string => kv.1 = key) (Header req)).*2.

(** What [client.Do] comes back with: a transport error, or a response
    with its status code and body. *)
Inductive DoResult :=
  | DoError (e : error)
  | DoResponse (StatusCode : Z) (body : list byte).

(** What a flush pass leaves behind: its return value, the client, and the
    requests it handed to [client.Do], oldest first. *)
Record Flushed := mkFlushed {
  flush_err : option error;
  flush_client : Client;
  flush_sent : list Request
}.

(** The error of parsing the endpoint in [http.NewRequest], if any. *)
Variable url_error : string -> option error.

(** [client.Do], given how many requests the pass has issued before. *)
Variable Do : nat -> Request -> DoResult.

Definition NewRequest (method url : string) (body : list byte) : Request + error :=
  match url_error url with
  | Some e => inr e
  | None => inl (mkRequest method url [] body)
  end.

(** The headers [Flush] adds for the group [k]. *)
Definition add_headers (req : Request) (k : string) (body : list byte) : Request :=
  let req := Header_Add req "User-Agent" ("go-loggly (version: " +:+ Version +:+ ")") in
  let req := Header_Add req "Content-Type" "text/plain" in
  let req := Header_Add req "Content-Length" (string_of_int (len body)) in
  let tags := k in
  if bool_decide (tags <> "notag") then Header_Add req "X-Loggly-Tag" tags else req.

(** Whether the loop of [Flush] goes on after a batch, or returns. *)
Inductive Shipped :=
  | Return_ (err : option error)
  | Continue.

(** The body of the loop of [Flush] from [client := &http.Client{}] on:
    the POST of the joined batch [body] of the group [k], when [sent] are
    the requests of the pass so far. *)
Definition ship (endpoint k : string) (body : list byte) (sent : list Request)
    : Shipped * list Request :=
  match NewRequest "POST" endpoint body with
  | inr err => (Return_ (Some err), sent)
  | inl req =>
      let req := add_headers req k body in
      match Do (length sent) req with
      | DoError err => (Return_ (Some err), sent ++ [req])
      | DoResponse StatusCode _ =>
          (* [err] is the error [client.Do] returned: nil on this path *)
          let err : option error := None in
          if StatusCode >=? 400 then (Return_ err, sent ++ [req])
          else (Continue, sent ++ [req])
      end
  end.

(** The request that [ship] hands to [client.Do] for the batch [body] of
    the group [k]. *)
Definition request_of (endpoint k : string) (body : list byte) : Request :=
  add_headers (mkRequest "POST" endpoint [] body) k body.

(** The group a request was built for, read back from its tag header. *)
Definition group_of (req : Request) : string :=
  match Header_Values req "X-Loggly-Tag" with
  | t :: _ => t
  | [] => "notag"
  end.

(** The loop of [Flush] over the keys [ks] that [range] still has to
    visit; [sent] are the requests issued so far. *)
Fixpoint Flush_range (ks : list string) (c : Client) (sent : list Request) : Flushed :=
  match ks with
  | [] => mkFlushed None c sent
  | k :: ks =>
      if len_queue (queue (buffer c) k) =? 0 then Flush_range ks c sent
      else
        let body := bytes_Join (queue (buffer c) k) nl in
        let c := set_buffer c (<[k := []]> (buffer c)) in
        match ship (Endpoint c) k body sent with
        | (Return_ err, sent) => mkFlushed err c sent
        | (Continue, sent) => Flush_range ks c sent
        end
  end.

(** [Flush], with the order in which [range c.buffer] yields the keys. *)
Definition Flush (order : list string) (c : Client) : Flushed :=
  Flush_range order c [].

(** The first turns of the loop of [start], one [range] order per turn:
    after each sleep, a flush whose result is dropped. *)
Definition start (turns : list (list string)) (c : Client) : Client :=
  fold_left (fun c order => flush_client (Flush order c)) turns c.

(** ** A lifetime of calls *)

(** The calls a program makes on a client over its lifetime; a
    timer-triggered or threshold-triggered flush is an [OpFlush]. *)
Inductive Op :=
  | OpSend (now : Z) (msg : gmap string Value)
  | OpWrite (b : list byte)
  | OpLog (w : Wrapper) (now : Z) (t : string) (props : list (gmap string Value))
  | OpFlush (order : list string)
  | OpTag (ts : list string).

Definition exec (c : Client) (op : Op) : Client :=
  match op with
  | OpSend now msg => after (Send now c msg).2
  | OpWrite b => after (Write c b).2
  | OpLog w now t props => after (call w now c t props)
  | OpFlush order => flush_client (Flush order c)
  | OpTag ts => Tag c ts
  end.

Definition exec_all (ops : list Op) (c : Client) : Client :=
  fold_left exec ops c.

(** ** Interleavings of Send and Flush *)

(** Where a goroutine stands. Every region between [c.Lock()] and
    [c.Unlock()] is one step, which is as coarse as the mutex allows; the
    statements of [Flush] outside its locked region are steps of their
    own. A flusher walks the keys [ks] it was given for [range]. *)
Inductive Task :=
  (* [Send] has encoded its record and is at [c.Lock()]; [order] is the
     range order of the flush it may start *)
  | AtSendLock (tagbuffer : string) (json : list byte) (order : list string)
  (* [Flush] at the head of its loop *)
  | AtRange (ks : list string) (sent : list Request)
  (* [Flush] past the length test of [k], at [c.Lock()] *)
  | AtFlushLock (k : string) (ks : list string) (sent : list Request)
  (* [Flush] past [c.Unlock()], at [c.buffer[k] = nil]; [q] is the queue
     that was joined into the body *)
  | AtClear (k : string) (ks : list string) (q : list (list byte)) (sent : list Request)
  (* [Flush] at [client := &http.Client{}] *)
  | AtPost (k : string) (ks : list string) (q : list (list byte)) (sent : list Request)
  | Returned (err : option error) (sent : list Request).

(** The client that the goroutines share, the goroutines, and the record
    of what the flushers have drained: each joined queue with its key. *)
Record World := mkWorld {
  shared : Client;
  tasks : list Task;
  drained : list (string * list (list byte))
}.

(** One step of the goroutine [i]. *)
Definition step (i : nat) (w : World) : World :=
  let c := shared w in
  match tasks w !! i with
  | None => w
  | Some (AtSendLock tagbuffer json order) =>
      let wr := Fprint (Writer c) (json ++ nl) in
      let b := <[tagbuffer := queue (buffer c) tagbuffer ++ [json]]> (buffer c) in
      let c := set_buffer (set_Writer c wr) b in
      let started := if BufferSize c <=? len_buffer b then [AtRange order []] else [] in
      mkWorld c (<[i := Returned None []]> (tasks w) ++ started) (drained w)
  | Some (AtRange [] sent) =>
      mkWorld c (<[i := Returned None sent]> (tasks w)) (drained w)
  | Some (AtRange (k :: ks) sent) =>
      if len_queue (queue (buffer c) k) =? 0
      then mkWorld c (<[i := AtRange ks sent]> (tasks w)) (drained w)
      else mkWorld c (<[i := AtFlushLock k ks sent]> (tasks w)) (drained w)
  | Some (AtFlushLock k ks sent) =>
      let q := queue (buffer c) k in
      mkWorld c (<[i := AtClear k ks q sent]> (tasks w)) (drained w ++ [(k, q)])
  | Some (AtClear k ks q sent) =>
      let c := set_buffer c (<[k := []]> (buffer c)) in
      mkWorld c (<[i := AtPost k ks q sent]> (tasks w)) (drained w)
  | Some (AtPost k ks q sent) =>
      match ship (Endpoint c) k (bytes_Join q nl) sent with
      | (Return_ err, sent) => mkWorld c (<[i := Returned err sent]> (tasks w)) (drained w)
      | (Continue, sent) => mkWorld c (<[i := AtRange ks sent]> (tasks w)) (drained w)
      end
  | Some (Returned _ _) => w
  end.

(** A schedule names the goroutine that moves at each step. *)
Definition run (schedule : list nat) (w : World) : World :=
  fold_left (fun w i => step i w) schedule w.

(** How often a blob was drained. *)
Definition times_drained (blob : list byte) (w : World) : nat :=
  length (filter (fun b => b = blob) (concat (drained w).*2)).

(** Whether a blob is queued in some group. *)
Definition queued (blob : list byte) (c : Client) : Prop :=
  exists k, blob ∈ queue (buffer c) k.

End Program.

(** ** Decimal rendering and a JSON encoder to run the model *)

(** [strconv.Itoa]: the decimal digits of an integer. *)
Definition Itoa (n : Z) : string :=
  NilZero.string_of_int (Z.to_int n).

(** The characters [0] to [9]. *)
Definition is_digit (a : ascii) : bool :=
  (48 <=? nat_of_ascii a)%nat && (nat_of_ascii a <=? 57)%nat.

Definition dquote : ascii := ascii_of_nat 34.
Definition backslash : ascii := ascii_of_nat 92.

Fixpoint escape (s : string) : string :=
  match s with
  | EmptyString => EmptyString
  | String a s =>
      if (a =? dquote)%char || (a =? backslash)%char
      then String backslash (String a (escape s))
      else String a (escape s)
  end.

Definition quote (s : string) : string :=
  String dquote (escape s +:+ String dquote EmptyString).

Definition key_le (x y : string * string) : Prop := String.leb x.1 y.1.

#[global] Instance key_le_dec : RelDecision key_le.
Proof. intros x y. unfold key_le. apply _. Defined.

Definition render_object (members : list (string * string)) : string :=
  "{" +:+ strings_Join (map (fun m => quote m.1 +:+ ":" +:+ m.2) (merge_sort key_le members)) ","
      +:+ "}".

(** An encoder in the shape of [json.Marshal], to run the model on
    concrete records: members in key order, no white space, [VChan]
    refused. Of the escapes of [encoding/json] it has the quote and the
    backslash only. The theorems hold for every encoder. *)
Fixpoint encode (v : Value) : option string :=
  match v with
  | VNil => Some "null"
  | VBool b => Some (if b then "true" else "false")
  | VInt n => Some (Itoa n)
  | VString s => Some (quote s)
  | VArray vs =>
      let elems :=
        (fix elems (vs : list Value) : option (list string) :=
           match vs with
           | [] => Some []
           | v :: vs =>
               match encode v, elems vs with
               | Some e, Some es => Some (e :: es)
               | _, _ => None
               end
           end) vs in
      match elems with
      | Some es => Some ("[" +:+ strings_Join es "," +:+ "]")
      | None => None
      end
  | VObject kvs =>
      let members :=
        (fix members (kvs : list (string * Value)) : option (list (string * string)) :=
           match kvs with
           | [] => Some []
           | (k, v) :: kvs =>
               match encode v, members kvs with
               | Some e, Some ms => Some ((k, e) :: ms)
               | _, _ => None
               end
           end) kvs in
      match members with
      | Some ms => Some (render_object ms)
      | None => None
      end
  | VChan _ => None
  end.

Definition json_Marshal (msg : gmap string Value) : list byte + error :=
  match encode (VObject (map_to_list msg)) with
  | Some s => inl (list_byte_of_string s)
  | None => inr "json: unsupported type"
  end.

(** A parser that accepts every endpoint, and a server that answers every
    request with the same status. *)
Definition url_ok : string -> option error := fun _ => None.

Definition respond (status : Z) : nat -> Request -> DoResult :=
  fun _ _ => DoResponse status [].

(** A client as [New] makes it, with the given threshold, default
    properties, buffer and minimal-mode flag set afterwards. *)
Definition client_with (bufferSize : Z) (defaults : gmap string Value)
    (buf : gmap string (list (list byte))) (minLog : bool) : Client :=
  let c := New (inr "no hostname") "token" bufferSize minLog [] in
  mkClient (Writer c) (Level_ c) (BufferSize c) (FlushInterval c) (Endpoint c)
           (Token c) defaults buf (tags c) (MinimalLog c).

(** * Properties *)

Section Properties.

Variable Marshal : gmap string Value -> list byte + error.
Variable url_error : string -> option error.
Variable Do : nat -> Request -> DoResult.

(** *** merge *)

Lemma lookup_merge1 (a msg : gmap string Value) (k : string) :
  merge1 a msg !! k = match msg !! k with Some v => Some v | None => a !! k end.
Proof.
  unfold merge1.
  apply (map_fold_weak_ind
    (fun r (m : gmap string Value) =>
       r !! k = match m !! k with Some v => Some v | None => a !! k end)).
  - by rewrite lookup_empty.
  - intros i x m r Hi IH.
    destruct (decide (i = k)) as [->|Hne].
    + by rewrite !lookup_insert_eq.
    + by rewrite !lookup_insert_ne.
Qed.

Lemma merge1_union (a msg : gmap string Value) : merge1 a msg = msg ∪ a.
Proof.
  apply map_eq. intros k. rewrite lookup_merge1, lookup_union.
  destruct (msg !! k), (a !! k); reflexivity.
Qed.

Lemma lookup_prepare_minimal now c msg k :
  MinimalLog c = true ->
  prepare now c msg !! k =
    if bool_decide (k ∈ ["filename"; "func"; "hostname"; "line"]) then None else msg !! k.
Proof.
  intros Hmin. unfold prepare. rewrite Hmin.
  case_bool_decide as Hk.
  - rewrite !elem_of_cons, elem_of_nil in Hk.
    destruct Hk as [->|[->|[->|[->|[]]]]];
      repeat first [ by rewrite lookup_delete_eq | rewrite lookup_delete_ne by done ].
  - rewrite !lookup_delete_ne; [done|..]; intros <-; apply Hk; set_solver.
Qed.

Lemma lookup_prepare_full now c msg k :
  MinimalLog c = false ->
  prepare now c msg !! k =
    match Defaults c !! k with
    | Some d => Some d
    | None =>
        if bool_decide (k = "timestamp") then
          match msg !! "timestamp" with
          | Some v => Some v
          | None => Some (VInt (Z.quot now Millisecond))
          end
        else msg !! k
    end.
Proof.
  intros Hmin. unfold prepare. rewrite Hmin. cbn [merge fold_left].
  rewrite lookup_merge1. destruct (Defaults c !! k); [done|].
  case_bool_decide as Hk.
  - subst k. destruct (msg !! "timestamp") eqn:E; [done|]. by rewrite lookup_insert_eq.
  - destruct (msg !! "timestamp"); [done|]. by rewrite lookup_insert_ne.
Qed.

(** *** Send *)

Lemma Send_fst now c msg : (Send Marshal now c msg).1 = prepare now c msg.
Proof. unfold Send. destruct (tagbuffer_of _); [destruct (Marshal _)|]; reflexivity. Qed.

(** The one way in which [Send] returns nil. *)
Lemma Send_Nil_inv now c msg :
  ret (Send Marshal now c msg).2 = Nil ->
  exists k json,
    tagbuffer_of (prepare now c msg) = Some k /\
    Marshal (prepare now c msg) = inl json /\
    let b := <[k := queue (buffer c) k ++ [json]]> (buffer c) in
    (Send Marshal now c msg).2 =
      mkReturn Nil (set_buffer (set_Writer c (Fprint (Writer c) (json ++ nl))) b)
               (BufferSize c <=? len_buffer b).
Proof.
  unfold Send. destruct (tagbuffer_of _) as [k|]; [|discriminate].
  destruct (Marshal _) as [json|e]; [|discriminate].
  intros _. exists k, json. auto.
Qed.

Lemma Send_Nil_intro now c msg k json :
  tagbuffer_of (prepare now c msg) = Some k ->
  Marshal (prepare now c msg) = inl json ->
  let b := <[k := queue (buffer c) k ++ [json]]> (buffer c) in
  (Send Marshal now c msg).2 =
    mkReturn Nil (set_buffer (set_Writer c (Fprint (Writer c) (json ++ nl))) b)
             (BufferSize c <=? len_buffer b).
Proof. intros Hk Hj. unfold Send. rewrite Hk, Hj. reflexivity. Qed.

(** [Send] never removes a key of the buffer and never touches the
    threshold. *)
Lemma Send_dom now c msg :
  dom (buffer c) ⊆ dom (buffer (after (Send Marshal now c msg).2)) /\
  BufferSize (after (Send Marshal now c msg).2) = BufferSize c.
Proof.
  unfold Send. destruct (tagbuffer_of _) as [k|]; [|done].
  destruct (Marshal _) as [json|e]; [|done].
  cbn. split; [apply dom_insert_subseteq|done].
Qed.

Lemma Write_dom c b :
  dom (buffer c) ⊆ dom (buffer (after (Write c b).2)) /\
  BufferSize (after (Write c b).2) = BufferSize c.
Proof. cbn. split; [apply dom_insert_subseteq|done]. Qed.

Lemma call_unfold w now c t props :
  call Marshal w now c t props = mkReturn Nil c false \/
  exists msg, call Marshal w now c t props = (Send Marshal now c msg).2.
Proof.
  destruct w; cbn [call];
    [unfold Debug|unfold Info|unfold Notice|unfold Warn
    |unfold Error|unfold Critical|unfold Alert|unfold Emergency];
    (destruct (_ >? _); [by left|right; eauto]).
Qed.

(** *** Flush *)

Lemma ship_cases endpoint k body sent :
  (exists e, url_error endpoint = Some e /\
     ship url_error Do endpoint k body sent = (Return_ (Some e), sent)) \/
  (url_error endpoint = None /\
     let req := request_of endpoint k body in
     match Do (length sent) req with
     | DoError e =>
         ship url_error Do endpoint k body sent = (Return_ (Some e), sent ++ [req])
     | DoResponse st _ =>
         ship url_error Do endpoint k body sent =
           (if st >=? 400 then Return_ None else Continue, sent ++ [req])
     end).
Proof.
  unfold ship, NewRequest, request_of.
  destruct (url_error endpoint) as [e|]; [left; eauto|right].
  split; [done|]. cbn zeta.
  destruct (Do _ _) as [e|st rb]; [done|]. by destruct (st >=? 400).
Qed.

Lemma Header_Values_request_of endpoint k body :
  Header_Values (request_of endpoint k body) "Content-Length" = [string_of_int (len body)] /\
  Header_Values (request_of endpoint k body) "X-Loggly-Tag" =
    (if bool_decide (k = "notag") then [] else [k]) /\
  Body (request_of endpoint k body) = body.
Proof.
  unfold request_of, add_headers.
  destruct (decide (k = "notag")) as [->|Hk].
  - rewrite bool_decide_eq_false_2 by (intros H; by apply H).
    rewrite bool_decide_eq_true_2 by done. done.
  - rewrite bool_decide_eq_true_2 by done.
    rewrite (bool_decide_eq_false_2 _ Hk).
    unfold Header_Values, Header_Add. cbn [Header Body app].
    rewrite !filter_cons. repeat case_decide; try done. 
Qed.

Lemma group_of_request_of endpoint k body :
  group_of (request_of endpoint k body) = k.
Proof.
  unfold group_of.
  destruct (Header_Values_request_of endpoint k body) as (_ & -> & _).
  by case_bool_decide.
Qed.

Lemma len_queue_nonempty (q : list (list byte)) :
  (len_queue q =? 0) = false <-> q <> [].
Proof.
  unfold len_queue. rewrite Z.eqb_neq. destruct q; cbn; split; intros; try done; lia.
Qed.

(** The shape of a pass: the client changes in its buffer only, which
    keeps its keys, each queue being left as it was or emptied; and every
    request issued carries the joined queue of a key that was visited. *)
Lemma Flush_range_spec ks c sent :
  exists b extra,
    flush_client (Flush_range url_error Do ks c sent) = set_buffer c b /\
    dom b = dom (buffer c) /\
    (forall k, queue b k = [] \/ queue b k = queue (buffer c) k) /\
    flush_sent (Flush_range url_error Do ks c sent) = sent ++ extra /\
    Forall (fun req => exists k, k ∈ ks /\ queue (buffer c) k <> [] /\ queue b k = [] /\
              req = request_of (Endpoint c) k (bytes_Join (queue (buffer c) k) nl)) extra.
Proof.
  revert c sent. induction ks as [|k ks IH]; intros c sent.
  - exists (buffer c), []. cbn. rewrite app_nil_r. repeat split; auto. by destruct c.
  - cbn [Flush_range].
    destruct (len_queue (queue (buffer c) k) =? 0) eqn:Hlen.
    { destruct (IH c sent) as (b & extra & Hc & Hd & Hq & Hs & Hall).
      exists b, extra. repeat split; auto.
      eapply Forall_impl; [exact Hall|]. cbn. intros req (k' & ? & ?). exists k'.
      split; [by right|done]. }
    apply len_queue_nonempty in Hlen.
    assert (Hsome : is_Some (buffer c !! k)).
    { unfold queue in Hlen. destruct (buffer c !! k); [eauto|done]. }
    set (c1 := set_buffer c (<[k := []]> (buffer c))).
    assert (Hq1 : forall k', queue (buffer c1) k' = [] \/
                             queue (buffer c1) k' = queue (buffer c) k').
    { intros k'. unfold queue. cbn. destruct (decide (k = k')) as [->|Hne].
      - left. by rewrite lookup_insert_eq.
      - right. by rewrite lookup_insert_ne. }
    assert (Hk1 : queue (buffer c1) k = []).
    { unfold queue. cbn. by rewrite lookup_insert_eq. }
    pose (req := request_of (Endpoint c1) k (bytes_Join (queue (buffer c) k) nl)).
    assert (Hstop : forall r, exists b extra,
        flush_client (mkFlushed r c1 (sent ++ [req])) = set_buffer c b /\
        dom b = dom (buffer c) /\
        (forall k, queue b k = [] \/ queue b k = queue (buffer c) k) /\
        flush_sent (mkFlushed r c1 (sent ++ [req])) = sent ++ extra /\
        Forall (fun req => exists k0, k0 ∈ k :: ks /\ queue (buffer c) k0 <> [] /\
                  queue b k0 = [] /\
                  req = request_of (Endpoint c) k0 (bytes_Join (queue (buffer c) k0) nl)) extra).
    { intros r. exists (buffer c1), [req]. cbn. repeat split; auto.
      - by apply dom_insert_lookup_L.
      - constructor; [|constructor]. exists k. repeat split; auto. by left. }
    destruct (ship_cases (Endpoint c1) k (bytes_Join (queue (buffer c) k) nl) sent)
      as [(e & _ & ->)|(_ & Hdo)].
    { exists (buffer c1), []. cbn. rewrite app_nil_r. repeat split; auto.
      by apply dom_insert_lookup_L. }
    cbn zeta in Hdo. fold req in Hdo.
    destruct (Do (length sent) req) as [e|st rb]; rewrite Hdo; [apply Hstop|].
    destruct (st >=? 400); [apply Hstop|].
    destruct (IH c1 (sent ++ [req])) as (b & extra & Hc & Hd & Hq & Hs & Hall).
    assert (Hbk : queue b k = []).
    { destruct (Hq k) as [?|Heq]; [done|]. by rewrite Heq. }
    exists b, (req :: extra). repeat split.
    + rewrite Hc. by destruct c.
    + rewrite Hd. by apply dom_insert_lookup_L.
    + intros k'. destruct (Hq k') as [?|Heq]; [by left|].
      rewrite Heq. apply Hq1.
    + rewrite Hs, <- app_assoc. done.
    + constructor.
      * exists k. repeat split; auto. by left.
      * eapply Forall_impl; [exact Hall|]. cbn beta.
        intros r (k' & Hin & Hne & Hb' & ->). exists k'.
        destruct (Hq1 k') as [Hnil|Heq]; [by destruct Hne|].
        rewrite Heq in Hne. rewrite Heq. repeat split; auto. by right.
Qed.

Lemma Flush_range_sent_prefix ks c sent :
  exists extra, flush_sent (Flush_range url_error Do ks c sent) = sent ++ extra.
Proof. destruct (Flush_range_spec ks c sent) as (b & extra & _ & _ & _ & ? & _). eauto. Qed.



(** *** Routing and the flush trigger *)

(** Unless the default properties have a [partnerID] that the merge writes
    over it, the prepared record has the caller's [partnerID]. *)
Lemma lookup_prepare_partnerID now c msg :
  MinimalLog c = true \/ Defaults c !! "partnerID" = None ->
  prepare now c msg !! "partnerID" = msg !! "partnerID".
Proof.
  intros Hc. destruct (MinimalLog c) eqn:Hmin.
  - by rewrite lookup_prepare_minimal.
  - destruct Hc as [?|Hd]; [done|].
    rewrite lookup_prepare_full, Hd by done. done.
Qed.

Lemma len_buffer_dom (b : gmap string (list (list byte))) :
  len_buffer b = Z.of_nat (size (dom b)).
Proof. unfold len_buffer. by rewrite size_dom. Qed.



(** C7. A severity wrapper whose severity is below the level of the client
    returns nil and leaves the client, its buffer included, as it was; no
    record is encoded and no flush is started. *)
Theorem wrapper_below_level_is_noop w now c t props :
  severity w < Level_ c ->
  call Marshal w now c t props = mkReturn Nil c false.
Proof.
  intros Hlt.
  destruct w; cbn [call severity] in *;
    [unfold Debug|unfold Info|unfold Notice|unfold Warn
    |unfold Error|unfold Critical|unfold Alert|unfold Emergency];
    (destruct (_ >? _) eqn:E; [done|]);
    rewrite Z.gtb_ltb, Z.ltb_ge in E; lia.
Qed.

(** A submission that returns nil has queued the encoding of the prepared
    record at the end of the queue of its group. *)
Lemma Send_Nil_encoded now c msg :
  ret (Send Marshal now c msg).2 = Nil ->
  exists k json,
    tagbuffer_of (Send Marshal now c msg).1 = Some k /\
    Marshal (Send Marshal now c msg).1 = inl json /\
    queue (buffer (after (Send Marshal now c msg).2)) k = queue (buffer c) k ++ [json].
Proof.
  intros Hret. rewrite Send_fst.
  destruct (Send_Nil_inv now c msg Hret) as (k & json & Hk & Hj & ->).
  exists k, json. repeat split; auto.
  cbn. unfold queue at 1. by rewrite lookup_insert_eq.
Qed.

(** C4, as the code has it. In non-minimal mode the encoded record always
    has a [timestamp] key. Its value is the one of the default properties
    when they have that key; otherwise it is the caller's value, unchanged,
    when the record came with one, and the clock in milliseconds when it
    did not. *)
Theorem timestamp_of_encoded_record now c msg :
  MinimalLog c = false ->
  (Send Marshal now c msg).1 !! "timestamp" =
    match Defaults c !! "timestamp" with
    | Some d => Some d
    | None =>
        match msg !! "timestamp" with
        | Some v => Some v
        | None => Some (VInt (Z.quot now Millisecond))
        end
    end /\
  (ret (Send Marshal now c msg).2 = Nil ->
   exists k json,
     Marshal (Send Marshal now c msg).1 = inl json /\
     queue (buffer (after (Send Marshal now c msg).2)) k = queue (buffer c) k ++ [json]).
Proof.
  intros Hmin. split.
  - rewrite Send_fst, lookup_prepare_full by done.
    destruct (Defaults c !! "timestamp"); [done|].
    by rewrite bool_decide_eq_true_2.
  - intros Hret. destruct (Send_Nil_encoded now c msg Hret) as (k & json & _ & ? & ?).
    eauto.
Qed.

(** C8. In minimal mode the record that is encoded has none of the keys
    [filename], [func], [hostname], [line], and under every other key what
    the caller put there: no timestamp and no default is merged in. *)
Theorem minimal_mode_strips_keys now c msg :
  MinimalLog c = true ->
  (forall k,
     (Send Marshal now c msg).1 !! k =
       if bool_decide (k ∈ ["filename"; "func"; "hostname"; "line"]) then None
       else msg !! k) /\
  (ret (Send Marshal now c msg).2 = Nil ->
   exists k json,
     Marshal (Send Marshal now c msg).1 = inl json /\
     queue (buffer (after (Send Marshal now c msg).2)) k = queue (buffer c) k ++ [json]).
Proof.
  intros Hmin. split.
  - intros k. rewrite Send_fst. by apply lookup_prepare_minimal.
  - intros Hret. destruct (Send_Nil_encoded now c msg Hret) as (k & json & _ & ? & ?).
    eauto.
Qed.

(** C10, as the code has it. A record whose [partnerID] is present and
    not a string makes [Send] panic, the client untouched, when the client
    is in minimal mode or its default properties have no [partnerID]. In
    non-minimal mode a string [partnerID] among the default properties
    replaces the record's before the type assertion, and [Send] does not
    panic. *)
Theorem Send_panics_on_non_string_partnerID now c msg v :
  msg !! "partnerID" = Some v ->
  assert_string v = None ->
  (MinimalLog c = true \/ Defaults c !! "partnerID" = None ->
   (Send Marshal now c msg).2 = mkReturn Panic c false) /\
  (forall d, MinimalLog c = false -> Defaults c !! "partnerID" = Some (VString d) ->
   ret (Send Marshal now c msg).2 <> Panic).
Proof.
  intros Hv Hns. split.
  - intros Hc. unfold Send, tagbuffer_of.
    rewrite lookup_prepare_partnerID, Hv, Hns by done. done.
  - intros d Hmin Hd. unfold Send, tagbuffer_of.
    rewrite lookup_prepare_full, Hd by done. cbn.
    by destruct (Marshal _).
Qed.

(** With a parser that accepts the endpoint and a server that answers
    every request with a status below 400, a pass ships every non-empty
    group that [range] yields. *)
Lemma Flush_range_ships_all ks c sent k :
  url_error (Endpoint c) = None ->
  (forall n r, exists st b, Do n r = DoResponse st b /\ st < 400) ->
  k ∈ ks ->
  queue (buffer c) k <> [] ->
  request_of (Endpoint c) k (bytes_Join (queue (buffer c) k) nl)
    ∈ flush_sent (Flush_range url_error Do ks c sent).
Proof.
  intros Hurl Hok. revert c sent Hurl.
  induction ks as [|k0 ks IH]; intros c sent Hurl Hin Hne; [by apply elem_of_nil in Hin|].
  cbn [Flush_range].
  destruct (len_queue (queue (buffer c) k0) =? 0) eqn:Hlen.
  { apply elem_of_cons in Hin as [->|Hin]; [|by apply IH].
    apply Z.eqb_eq in Hlen. unfold len_queue in Hlen.
    destruct (queue (buffer c) k0); [done|cbn in Hlen; lia]. }
  set (c1 := set_buffer c (<[k0 := []]> (buffer c))).
  set (bd := bytes_Join (queue (buffer c) k0) nl).
  destruct (ship_cases (Endpoint c1) k0 bd sent) as [(e & He & _)|(_ & Hs)].
  { cbn in He. congruence. }
  cbn zeta in Hs.
  destruct (Hok (length sent) (request_of (Endpoint c1) k0 bd)) as (st & b & Hdo & Hst).
  rewrite Hdo in Hs. rewrite Hs.
  replace (st >=? 400) with false by (symmetry; rewrite Z.geb_leb; apply Z.leb_gt; lia).
  destruct (decide (k = k0)) as [->|Hk].
  - destruct (Flush_range_sent_prefix ks c1 (sent ++ [request_of (Endpoint c1) k0 bd]))
      as [extra ->].
    rewrite <- app_assoc. apply elem_of_app. right. by left.
  - apply elem_of_cons in Hin as [?|Hin]; [done|].
    assert (Hq : queue (buffer c1) k = queue (buffer c) k).
    { unfold queue. cbn. by rewrite lookup_insert_ne. }
    specialize (IH c1 (sent ++ [request_of (Endpoint c1) k0 bd]) Hurl Hin).
    rewrite Hq in IH. by apply IH.
Qed.

(** C6, as the code has it. Where the client is in minimal mode or its
    default properties have no [partnerID], a record without [partnerID]
    is queued in the group "notag" and a record whose [partnerID] is the
    string [x] in the group [x]. Every request of a flush carries the
    joined queue of a group [k] that [range] yielded, with the one tag
    header [X-Loggly-Tag: k] when [k] is not "notag" and with no tag header
    when it is; and where no delivery fails, every non-empty group that
    [range] yields gets such a request. *)
Theorem routing_and_tag_header :
  (forall now c msg,
     MinimalLog c = true \/ Defaults c !! "partnerID" = None ->
     ret (Send Marshal now c msg).2 = Nil ->
     exists json,
       Marshal (Send Marshal now c msg).1 = inl json /\
       (msg !! "partnerID" = None ->
        queue (buffer (after (Send Marshal now c msg).2)) "notag" =
          queue (buffer c) "notag" ++ [json]) /\
       (forall x, msg !! "partnerID" = Some (VString x) ->
        queue (buffer (after (Send Marshal now c msg).2)) x =
          queue (buffer c) x ++ [json])) /\
  (forall order c req,
     req ∈ flush_sent (Flush url_error Do order c) ->
     exists k,
       k ∈ order /\ queue (buffer c) k <> [] /\
       Body req = bytes_Join (queue (buffer c) k) nl /\
       Header_Values req "X-Loggly-Tag" = if bool_decide (k = "notag") then [] else [k]) /\
  (forall order c k,
     url_error (Endpoint c) = None ->
     (forall n r, exists st b, Do n r = DoResponse st b /\ st < 400) ->
     k ∈ order ->
     queue (buffer c) k <> [] ->
     exists req,
       req ∈ flush_sent (Flush url_error Do order c) /\
       Body req = bytes_Join (queue (buffer c) k) nl /\
       Header_Values req "X-Loggly-Tag" = if bool_decide (k = "notag") then [] else [k]).
Proof.
  split; [|split].
  - intros now c msg Hc Hret.
    destruct (Send_Nil_encoded now c msg Hret) as (k & json & Hk & Hj & Hq).
    rewrite Send_fst in Hk. unfold tagbuffer_of in Hk.
    rewrite lookup_prepare_partnerID in Hk by done.
    exists json. split; [done|]. split.
    + intros Hnone. rewrite Hnone in Hk. by injection Hk as <-.
    + intros x Hx. rewrite Hx in Hk. cbn in Hk. by injection Hk as <-.
  - intros order c req Hin. unfold Flush in Hin.
    destruct (Flush_range_spec order c []) as (b & extra & _ & _ & _ & Hs & Hall).
    rewrite Hs in Hin. cbn in Hin.
    rewrite Forall_forall in Hall.
    destruct (Hall req Hin) as (k & Hk & Hne & _ & ->).
    exists k. destruct (Header_Values_request_of (Endpoint c) k
                          (bytes_Join (queue (buffer c) k) nl)) as (_ & Ht & Hb).
    auto.
  - intros order c k Hurl Hok Hin Hne.
    exists (request_of (Endpoint c) k (bytes_Join (queue (buffer c) k) nl)).
    destruct (Header_Values_request_of (Endpoint c) k
                (bytes_Join (queue (buffer c) k) nl)) as (_ & Ht & Hb).
    split; [|auto]. by apply Flush_range_ships_all.
Qed.

(** *** The conversion [string(n)] against the decimal digits of [n] *)

(** The decimal rendering of a length starts with a digit. *)
Lemma Itoa_head n :
  0 <= n -> exists a rest, Itoa n = String a rest /\ is_digit a = true.
Proof.
  intros Hn. unfold Itoa. destruct n as [|p|p]; [| |lia].
  - do 2 eexists. split; reflexivity.
  - cbn [Z.to_int NilZero.string_of_int].
    destruct (Pos.to_uint p); cbn; do 2 eexists; split; reflexivity.
Qed.

(** A property checked on the first [m] numbers holds below [m]. *)
Lemma small_index (P : Z -> bool) (m : nat) :
  forallb P (map Z.of_nat (seq 0 m)) = true ->
  forall x, 0 <= x < Z.of_nat m -> P x = true.
Proof.
  intros Hall x Hx. rewrite forallb_forall in Hall. apply Hall.
  apply in_map_iff. exists (Z.to_nat x). split; [lia|]. apply in_seq. lia.
Qed.

Lemma shiftr_bound n s m :
  0 <= n < m * 2 ^ s -> 0 <= s -> 0 <= Z.shiftr n s < m.
Proof.
  intros Hn Hs. rewrite Z.shiftr_div_pow2 by done. split.
  - apply Z.div_pos; lia.
  - apply Z.div_lt_upper_bound; lia.
Qed.

(** From 128 on, [string(n)] starts with a byte that is no digit. *)
Lemma string_of_int_head n :
  128 <= n -> exists a rest, string_of_int n = String a rest /\ is_digit a = false.
Proof.
  intros Hn. unfold string_of_int.
  destruct ((n <? 0) || (1114111 <? n) || (55296 <=? n) && (n <=? 57343)) eqn:Hbad.
  { do 2 eexists. split; reflexivity. }
  apply orb_false_elim in Hbad as [Hbad _]. apply orb_false_elim in Hbad as [_ Hmax].
  apply Z.ltb_ge in Hmax.
  destruct (n <? 128) eqn:H1; [apply Z.ltb_lt in H1; lia|].
  destruct (n <? 2048) eqn:H2.
  { apply Z.ltb_lt in H2. do 2 eexists. split; [reflexivity|].
    apply negb_true_iff.
    apply (small_index (fun x => negb (is_digit (chr (Z.lor 192 x)))) 32).
    - vm_compute. reflexivity.
    - apply (shiftr_bound n 6 32); lia. }
  destruct (n <? 65536) eqn:H3.
  { apply Z.ltb_lt in H3. do 2 eexists. split; [reflexivity|].
    apply negb_true_iff.
    apply (small_index (fun x => negb (is_digit (chr (Z.lor 224 x)))) 16).
    - vm_compute. reflexivity.
    - apply (shiftr_bound n 12 16); lia. }
  do 2 eexists. split; [reflexivity|].
  apply negb_true_iff.
  apply (small_index (fun x => negb (is_digit (chr (Z.lor 240 x)))) 5).
  - vm_compute. reflexivity.
  - apply (shiftr_bound n 18 5); lia.
Qed.

(** For no length is [string(n)] the decimal rendering of [n]. *)
Lemma string_of_int_not_decimal n : 0 <= n -> string_of_int n <> Itoa n.
Proof.
  intros Hn. destruct (decide (n < 128)) as [Hlt|Hge].
  - pose proof (small_index (fun x => negb (String.eqb (string_of_int x) (Itoa x))) 128) as H.
    specialize (H ltac:(vm_compute; reflexivity) n ltac:(lia)).
    apply negb_true_iff, String.eqb_neq in H. exact H.
  - destruct (Itoa_head n Hn) as (a & r & -> & Ha).
    destruct (string_of_int_head n ltac:(lia)) as (a' & r' & -> & Ha').
    intros [= -> _]. congruence.
Qed.

(** C5, as the code has it. Every request of a flush has one
    [Content-Length] header; its value is [string(len(body))], the UTF-8
    encoding of the code point whose number is the byte length of the
    joined body, and for no body is that the decimal rendering of the
    length, which is what the claim has. *)
Theorem Content_Length_is_a_code_point order c req :
  req ∈ flush_sent (Flush url_error Do order c) ->
  Header_Values req "Content-Length" = [string_of_int (len (Body req))] /\
  string_of_int (len (Body req)) <> Itoa (len (Body req)).
Proof.
  intros Hin. unfold Flush in Hin.
  destruct (Flush_range_spec order c []) as (b & extra & _ & _ & _ & Hs & Hall).
  rewrite Hs in Hin. cbn in Hin. rewrite Forall_forall in Hall.
  destruct (Hall req Hin) as (k & _ & _ & _ & ->).
  destruct (Header_Values_request_of (Endpoint c) k
              (bytes_Join (queue (buffer c) k) nl)) as (Hl & _ & Hb).
  rewrite Hl, Hb. split; [done|].
  apply string_of_int_not_decimal. unfold len. lia.
Qed.

(** *** The keys of the buffer over a lifetime *)

Lemma Flush_dom order c :
  dom (buffer (flush_client (Flush url_error Do order c))) = dom (buffer c) /\
  BufferSize (flush_client (Flush url_error Do order c)) = BufferSize c.
Proof.
  unfold Flush.
  destruct (Flush_range_spec order c []) as (b & extra & -> & Hd & _).
  by cbn.
Qed.

Lemma exec_dom c op :
  dom (buffer c) ⊆ dom (buffer (exec Marshal url_error Do c op)) /\
  BufferSize (exec Marshal url_error Do c op) = BufferSize c.
Proof.
  destruct op as [now msg|b|w now t props|order|ts]; cbn [exec].
  - apply Send_dom.
  - apply Write_dom.
  - destruct (call_unfold w now c t props) as [->|[msg ->]]; [done|apply Send_dom].
  - destruct (Flush_dom order c) as [-> ->]. done.
  - done.
Qed.

Lemma exec_all_dom ops c :
  dom (buffer c) ⊆ dom (buffer (exec_all Marshal url_error Do ops c)) /\
  BufferSize (exec_all Marshal url_error Do ops c) = BufferSize c.
Proof.
  revert c. induction ops as [|op ops IH]; intros c; [done|].
  change (exec_all Marshal url_error Do (op :: ops) c)
    with (exec_all Marshal url_error Do ops (exec Marshal url_error Do c op)).
  destruct (IH (exec Marshal url_error Do c op)) as [Hd Hs].
  destruct (exec_dom c op) as [Hd1 Hs1].
  split; [by etrans|by rewrite Hs].
Qed.

(** C9, as the code has it. A flush keeps every key of the buffer, and so
    does every other call: over any sequence of calls the set of group
    keys only grows and the count that the flush trigger reads never
    decreases. Once that count has reached the threshold, every later
    submission that is encoded and appended, and every later [Write],
    starts a flush. *)
Theorem group_keys_only_grow :
  (forall order c,
     dom (buffer (flush_client (Flush url_error Do order c))) = dom (buffer c)) /\
  (forall ops c,
     dom (buffer c) ⊆ dom (buffer (exec_all Marshal url_error Do ops c)) /\
     len_buffer (buffer c) <= len_buffer (buffer (exec_all Marshal url_error Do ops c))) /\
  (forall ops c,
     BufferSize c <= len_buffer (buffer c) ->
     let c' := exec_all Marshal url_error Do ops c in
     (forall now msg,
        ret (Send Marshal now c' msg).2 = Nil -> go_Flush (Send Marshal now c' msg).2 = true) /\
     (forall b, go_Flush (Write c' b).2 = true)).
Proof.
  assert (Hmono : forall ops c,
            len_buffer (buffer c) <= len_buffer (buffer (exec_all Marshal url_error Do ops c))).
  { intros ops c. rewrite !len_buffer_dom.
    apply inj_le, subseteq_size, exec_all_dom. }
  split; [|split].
  - intros order c. apply Flush_dom.
  - intros ops c. split; [apply exec_all_dom|apply Hmono].
  - intros ops c Hreached c'.
    assert (Hc' : BufferSize c' <= len_buffer (buffer c')).
    { unfold c'. destruct (exec_all_dom ops c) as [_ ->]. specialize (Hmono ops c). lia. }
    split.
    + intros now msg Hret.
      destruct (Send_dom now c' msg) as [Hd _].
      destruct (Send_Nil_inv now c' msg Hret) as (k & json & _ & _ & E).
      rewrite E in Hd |- *. cbn in Hd |- *. apply Z.leb_le.
      apply subseteq_size, inj_le in Hd. rewrite <- !len_buffer_dom in Hd. lia.
    + intros b. destruct (Write_dom c' b) as [Hd _]. cbn in Hd |- *. apply Z.leb_le.
      apply subseteq_size, inj_le in Hd. rewrite <- !len_buffer_dom in Hd. lia.
Qed.

(** *** Interleavings *)

Lemma run_app s1 s2 w :
  run url_error Do (s1 ++ s2) w = run url_error Do s2 (run url_error Do s1 w).
Proof. unfold run. apply fold_left_app. Qed.

(** A flusher that runs alone goes through the loop of [Flush]: it ends
    with the client, the error and the requests of [Flush_range]. *)
Lemma solo_flusher_is_Flush ks c sent dr :
  exists n dr',
    run url_error Do (replicate n 0%nat) (mkWorld c [AtRange ks sent] dr) =
    mkWorld (flush_client (Flush_range url_error Do ks c sent))
            [Returned (flush_err (Flush_range url_error Do ks c sent))
                      (flush_sent (Flush_range url_error Do ks c sent))]
            dr'.
Proof.
  revert c sent dr. induction ks as [|k ks IH]; intros c sent dr.
  - exists 1%nat, dr. reflexivity.
  - cbn [Flush_range].
    destruct (len_queue (queue (buffer c) k) =? 0) eqn:Hlen.
    + destruct (IH c sent dr) as (n & dr' & Hn).
      exists (S n), dr'. cbn [replicate].
      change (0%nat :: replicate n 0%nat) with ([0%nat] ++ replicate n 0%nat).
      rewrite run_app. cbn [run fold_left]. unfold step at 1. cbn [tasks lookup].
      cbn. rewrite Hlen. exact Hn.
    + set (c1 := set_buffer c (<[k := []]> (buffer c))).
      set (bd := bytes_Join (queue (buffer c) k) nl).
      assert (H3 : run url_error Do [0%nat; 0%nat; 0%nat] (mkWorld c [AtRange (k :: ks) sent] dr)
                   = mkWorld c1 [AtPost k ks (queue (buffer c) k) sent]
                             (dr ++ [(k, queue (buffer c) k)])).
      { cbn. rewrite Hlen. reflexivity. }
      destruct (ship url_error Do (Endpoint c1) k bd sent) as [[err|] sent'] eqn:Hs.
      * exists 4%nat, (dr ++ [(k, queue (buffer c) k)]).
        change (replicate 4 0%nat) with ([0%nat; 0%nat; 0%nat] ++ [0%nat]).
        rewrite run_app, H3. cbn. fold bd.
        change (Endpoint c) with (Endpoint c1). rewrite Hs. reflexivity.
      * destruct (IH c1 sent' (dr ++ [(k, queue (buffer c) k)])) as (n & dr' & Hn).
        exists (4 + n)%nat, dr'.
        change (replicate (4 + n) 0%nat)
          with ([0%nat; 0%nat; 0%nat] ++ [0%nat] ++ replicate n 0%nat).
        rewrite run_app, H3, run_app. cbn [run fold_left]. unfold step at 1.
        cbn [tasks lookup shared]. cbn. fold bd.
        change (Endpoint c) with (Endpoint c1). rewrite Hs. exact Hn.
Qed.

End Properties.

(** *** The unlocked clear of [Flush] *)

(** C2. [Flush] joins the queue of a group inside its locked region and
    clears it after [c.Unlock()]. With one producer of the blob [a], one
    flusher and one producer of the blob [b], the schedule in which [b] is
    appended between the flusher's unlock and its clear ends with every
    goroutine returned, [b] neither queued nor ever drained: the clear
    wrote over it. With two flushers, the schedule in which both join the
    queue before either clears it drains, and posts, [a] twice. *)
Theorem unlocked_clear_loses_and_duplicates :
  let c := client_with 100 ∅ ∅ false in
  let a := [x61] in
  let b := [x62] in
  let lost :=
    run url_ok (respond 200) [0; 1; 1; 2; 1; 1; 1]%nat
      (mkWorld c [AtSendLock "notag" a []; AtRange ["notag"] []; AtSendLock "notag" b []] []) in
  let twice :=
    run url_ok (respond 200) [0; 1; 1; 2; 2; 1; 2; 1; 2; 1; 2]%nat
      (mkWorld c [AtSendLock "notag" a []; AtRange ["notag"] []; AtRange ["notag"] []] []) in
  (exists r1, tasks lost = [Returned None []; Returned None [r1]; Returned None []]) /\
  ~ queued b (shared lost) /\
  times_drained b lost = 0%nat /\
  times_drained a lost = 1%nat /\
  (exists r1 r2,
     tasks twice = [Returned None []; Returned None [r1]; Returned None [r2]] /\
     Body r1 = a /\ Body r2 = a) /\
  times_drained a twice = 2%nat.
Proof.
  cbv zeta. split; [|split; [|split; [|split; [|split]]]].
  - eexists. vm_compute. reflexivity.
  - intros [k Hin].
    assert (Hb : buffer (shared (run url_ok (respond 200) [0; 1; 1; 2; 1; 1; 1]%nat
              (mkWorld (client_with 100 ∅ ∅ false)
                 [AtSendLock "notag" [x61] []; AtRange ["notag"] [];
                  AtSendLock "notag" [x62] []] []))) = {["notag" := []]})
      by (vm_compute; reflexivity).
    rewrite Hb in Hin. unfold queue in Hin.
    destruct (decide (k = "notag")) as [->|Hne].
    + rewrite lookup_singleton_eq in Hin. by apply elem_of_nil in Hin.
    + rewrite lookup_singleton_ne in Hin by done. by apply elem_of_nil in Hin.
  - vm_compute. reflexivity.
  - vm_compute. reflexivity.
  - do 2 eexists. vm_compute. repeat split; reflexivity.
  - vm_compute. reflexivity.
Qed.

(** *** The theorems at concrete inputs *)



(** The trigger does not count records: five records of one group leave a
    client of threshold 2 without a flush. *)
Lemma five_records_one_group_no_flush :
  let c0 := New (inl "host") "token" 2 false [] in
  let msg : gmap string Value := {["partnerID" := VString "a"]} in
  let send c := after (Send json_Marshal 1500000000 c msg).2 in
  let c4 := send (send (send (send c0))) in
  length (queue (buffer c4) "a") = 4%nat /\
  go_Flush (Send json_Marshal 1500000000 c4 msg).2 = false.
Proof. cbv zeta. split; vm_compute; reflexivity. Qed.

(** C7 at a client of level ERROR and the info wrapper. *)
Lemma wrapper_below_level_is_noop_witness :
  let c := New (inl "host") "token" 100 false [] in
  let c := mkClient (Writer c) ERROR (BufferSize c) (FlushInterval c) (Endpoint c)
             (Token c) (Defaults c) (buffer c) (tags c) (MinimalLog c) in
  severity WInfo < Level_ c /\
  call json_Marshal WInfo 1500000000 c "boot" [] = mkReturn Nil c false.
Proof.
  cbv zeta. split; [reflexivity|].
  apply (wrapper_below_level_is_noop json_Marshal WInfo). reflexivity.
Defined.

(** C4 fails where the default properties have a [timestamp]: the
    caller's 5 is encoded as the default's 0. *)
Lemma default_timestamp_overwrites_caller :
  let c := client_with 2 {["timestamp" := VInt 0]} ∅ false in
  let msg : gmap string Value := {["timestamp" := VInt 5]} in
  let r := Send json_Marshal 1500000000 c msg in
  MinimalLog c = false /\
  msg !! "timestamp" = Some (VInt 5) /\
  ret r.2 = Nil /\
  r.1 !! "timestamp" = Some (VInt 0) /\
  r.1 !! "timestamp" <> msg !! "timestamp" /\
  exists json,
    json_Marshal {["timestamp" := VInt 0]} = inl json /\
    queue (buffer (after r.2)) "notag" = [json].
Proof.
  cbv zeta. repeat (split; [vm_compute; reflexivity|]).
  split; [vm_compute; discriminate|].
  eexists. split; vm_compute; reflexivity.
Qed.

(** C4, amended, at a client without a default [timestamp]: the caller's
    5 stays. *)
Lemma timestamp_of_encoded_record_witness :
  let c := New (inl "host") "token" 2 false [] in
  let msg : gmap string Value := {["timestamp" := VInt 5]} in
  MinimalLog c = false /\
  (Send json_Marshal 1500000000 c msg).1 !! "timestamp" = Some (VInt 5).
Proof.
  cbv zeta. split; [reflexivity|].
  etrans.
  - exact (proj1 (timestamp_of_encoded_record json_Marshal 1500000000
                    (New (inl "host") "token" 2 false []) {["timestamp" := VInt 5]} eq_refl)).
  - vm_compute. reflexivity.
Defined.

(** C5 at a batch of two bytes: the header is the one byte 0x02, where
    the decimal length is the digit 2. *)
Lemma Content_Length_is_a_code_point_witness :
  let c := client_with 2 ∅ {["notag" := [[x7b; x7d]]]} false in
  let req := request_of (Endpoint c) "notag" [x7b; x7d] in
  req ∈ flush_sent (Flush url_ok (respond 200) ["notag"] c) /\
  Header_Values req "Content-Length" = [String (chr 2) EmptyString] /\
  Itoa (len (Body req)) = "2" /\
  String (chr 2) EmptyString <> Itoa (len (Body req)).
Proof.
  cbv zeta.
  assert (Hin : request_of (Endpoint (client_with 2 ∅ {["notag" := [[x7b; x7d]]]} false))
                  "notag" [x7b; x7d]
                ∈ flush_sent (Flush url_ok (respond 200) ["notag"]
                                (client_with 2 ∅ {["notag" := [[x7b; x7d]]]} false))).
  { assert (H : flush_sent (Flush url_ok (respond 200) ["notag"]
                              (client_with 2 ∅ {["notag" := [[x7b; x7d]]]} false))
                = [request_of (Endpoint (client_with 2 ∅ {["notag" := [[x7b; x7d]]]} false))
                     "notag" [x7b; x7d]]) by (vm_compute; reflexivity).
    rewrite H. constructor. }
  split; [exact Hin|]. split.
  - etrans.
    + exact (proj1 (Content_Length_is_a_code_point url_ok (respond 200) ["notag"] _ _ Hin)).
    + vm_compute. reflexivity.
  - split; [vm_compute; reflexivity|vm_compute; discriminate].
Defined.

(** C6 fails at a record whose [partnerID] is the string "notag": it is
    queued with the untagged records and flushed without a tag header. It
    fails too where the default properties have a [partnerID], which
    replaces the record's own or stands in for a missing one. *)
Lemma partnerID_notag_sends_no_tag_header :
  let c := client_with 2 ∅ ∅ false in
  let msg : gmap string Value := {["partnerID" := VString "notag"]} in
  let r := Send json_Marshal 1500000000 c msg in
  let F := Flush url_ok (respond 200) ["notag"] (after r.2) in
  let c' := client_with 2 {["partnerID" := VString "p"]} ∅ false in
  let r0 := Send json_Marshal 1500000000 c' ∅ in
  let rx := Send json_Marshal 1500000000 c' {["partnerID" := VString "x"]} in
  msg !! "partnerID" = Some (VString "notag") /\
  ret r.2 = Nil /\
  (exists req, flush_sent F = [req] /\ Header_Values req "X-Loggly-Tag" = []) /\
  ret r0.2 = Nil /\ queue (buffer (after r0.2)) "notag" = [] /\
  ret rx.2 = Nil /\ queue (buffer (after rx.2)) "x" = [].
Proof.
  cbv zeta. split; [vm_compute; reflexivity|]. split; [vm_compute; reflexivity|].
  split; [eexists; split; vm_compute; reflexivity|].
  repeat (split; [vm_compute; reflexivity|]). vm_compute; reflexivity.
Qed.

(** C6, amended, at a record for the group "x". *)
Lemma routing_and_tag_header_witness :
  let c := New (inl "host") "token" 2 false [] in
  let msg : gmap string Value := {["partnerID" := VString "x"]} in
  exists json,
    json_Marshal (Send json_Marshal 1500000000 c msg).1 = inl json /\
    queue (buffer (after (Send json_Marshal 1500000000 c msg).2)) "x" =
      queue (buffer c) "x" ++ [json].
Proof.
  cbv zeta.
  assert (Hd : Defaults (New (inl "host") "token" 2 false []) !! "partnerID" = None)
    by (vm_compute; reflexivity).
  assert (Hr : ret (Send json_Marshal 1500000000 (New (inl "host") "token" 2 false [])
                      {["partnerID" := VString "x"]}).2 = Nil)
    by (vm_compute; reflexivity).
  assert (Hp : ({["partnerID" := VString "x"]} : gmap string Value) !! "partnerID"
               = Some (VString "x"))
    by (vm_compute; reflexivity).
  destruct (proj1 (routing_and_tag_header json_Marshal url_ok (respond 200))
              1500000000 (New (inl "host") "token" 2 false [])
              {["partnerID" := VString "x"]} (or_intror Hd) Hr)
    as (json & Hj & _ & Hx).
  exists json. split; [exact Hj|exact (Hx "x" Hp)].
Defined.

(** C8 at a record that comes with all four keys. *)
Lemma minimal_mode_strips_keys_witness :
  let c := New (inl "host") "token" 2 true [] in
  let msg : gmap string Value :=
    <["filename" := VString "main.go"]> (<["func" := VString "main"]>
      (<["hostname" := VString "h"]> (<["line" := VInt 12]> {["note" := VString "up"]}))) in
  let m := (Send json_Marshal 1500000000 c msg).1 in
  MinimalLog c = true /\
  m !! "filename" = None /\ m !! "func" = None /\ m !! "hostname" = None /\
  m !! "line" = None /\ m !! "timestamp" = None /\ m !! "note" = Some (VString "up").
Proof.
  cbv zeta. split; [reflexivity|].
  pose proof (proj1 (minimal_mode_strips_keys json_Marshal 1500000000
                       (New (inl "host") "token" 2 true [])
                       (<["filename" := VString "main.go"]> (<["func" := VString "main"]>
                          (<["hostname" := VString "h"]> (<["line" := VInt 12]>
                             {["note" := VString "up"]})))) eq_refl)) as H.
  repeat split; (etrans; [apply H|vm_compute; reflexivity]).
Defined.

(** C9 fails at a submission that does not reach the append: with the
    threshold reached, a record that [json.Marshal] refuses comes back with
    the encoding error, and a record whose [partnerID] is a number panics;
    neither starts a flush, and the client is as it was. *)
Lemma rejected_submission_starts_no_flush :
  let c := client_with 2 ∅ (<["a" := [[x61]]]> {["b" := [[x62]]]}) false in
  let bad : gmap string Value := {["payload" := VChan 0]} in
  let num : gmap string Value := {["partnerID" := VInt 7]} in
  BufferSize c <= len_buffer (buffer c) /\
  (exists e, (Send json_Marshal 1500000000 c bad).2 = mkReturn (Err e) c false) /\
  (Send json_Marshal 1500000000 c num).2 = mkReturn Panic c false.
Proof.
  cbv zeta. split; [vm_compute; discriminate|]. split.
  - eexists. vm_compute. reflexivity.
  - vm_compute. reflexivity.
Qed.

(** C9, amended, at a client of threshold 2 whose two groups are flushed
    before the next record arrives: the record still starts a flush. *)
Lemma group_keys_only_grow_witness :
  let c := client_with 2 ∅ (<["a" := [[x61]]]> {["b" := [[x62]]]}) false in
  let c' := exec_all json_Marshal url_ok (respond 200) [OpFlush ["a"; "b"]] c in
  BufferSize c <= len_buffer (buffer c) /\
  queue (buffer c') "a" = [] /\ queue (buffer c') "b" = [] /\
  go_Flush (Send json_Marshal 1500000000 c' {["partnerID" := VString "a"]}).2 = true.
Proof.
  cbv zeta.
  assert (Hreached : BufferSize (client_with 2 ∅ (<["a" := [[x61]]]> {["b" := [[x62]]]}) false)
                     <= len_buffer (buffer (client_with 2 ∅
                                      (<["a" := [[x61]]]> {["b" := [[x62]]]}) false)))
    by (vm_compute; discriminate).
  split; [exact Hreached|]. split; [vm_compute; reflexivity|]. split; [vm_compute; reflexivity|].
  apply (proj1 (proj2 (proj2 (group_keys_only_grow json_Marshal url_ok (respond 200)))
                  [OpFlush ["a"; "b"]] _ Hreached)).
  vm_compute. reflexivity.
Defined.

(** C10 fails where the default properties have a string [partnerID]: it
    replaces the record's number before the type assertion, and [Send]
    returns nil with the record queued in the default's group. *)
Lemma default_partnerID_prevents_panic :
  let c := client_with 2 {["partnerID" := VString "p"]} ∅ false in
  let msg : gmap string Value := {["partnerID" := VInt 7]} in
  let r := Send json_Marshal 1500000000 c msg in
  msg !! "partnerID" = Some (VInt 7) /\
  assert_string (VInt 7) = None /\
  ret r.2 = Nil /\
  ret r.2 <> Panic /\
  length (queue (buffer (after r.2)) "p") = 1%nat.
Proof.
  cbv zeta. split; [vm_compute; reflexivity|]. split; [reflexivity|].
  split; [vm_compute; reflexivity|]. split; [vm_compute; discriminate|].
  vm_compute. reflexivity.
Qed.

(** C10, amended, at a client as [New] makes it and a record whose
    [partnerID] is a number. *)
Lemma Send_panics_on_non_string_partnerID_witness :
  let c := New (inl "host") "token" 2 false [] in
  let msg : gmap string Value := {["partnerID" := VInt 7]} in
  msg !! "partnerID" = Some (VInt 7) /\
  assert_string (VInt 7) = None /\
  Defaults c !! "partnerID" = None /\
  (Send json_Marshal 1500000000 c msg).2 = mkReturn Panic c false.
Proof.
  cbv zeta.
  assert (Hp : ({["partnerID" := VInt 7]} : gmap string Value) !! "partnerID" = Some (VInt 7))
    by (vm_compute; reflexivity).
  assert (Hd : Defaults (New (inl "host") "token" 2 false []) !! "partnerID" = None)
    by (vm_compute; reflexivity).
  split; [exact Hp|]. split; [reflexivity|]. split; [exact Hd|].
  exact (proj1 (Send_panics_on_non_string_partnerID json_Marshal 1500000000
                  (New (inl "host") "token" 2 false []) {["partnerID" := VInt 7]} (VInt 7)
                  Hp eq_refl) (or_intror Hd)).
Defined.


(** * Further properties of the package *)

(** *** merge *)

Lemma merge_app a l1 l2 : merge a (l1 ++ l2) = merge (merge a l1) l2.
Proof. unfold merge. apply fold_left_app. Qed.

Lemma lookup_merge_absent a others k :
  Forall (fun m : gmap string Value => m !! k = None) others ->
  merge a others !! k = a !! k.
Proof.
  revert a. induction others as [|m others IH]; intros a Hall; [done|].
  apply Forall_cons in Hall as [Hm Hall].
  change (merge a (m :: others)) with (merge (merge1 a m) others).
  rewrite IH by done. by rewrite lookup_merge1, Hm.
Qed.

(** [merge]: the last map that has a key decides its value; a key that no
    map of [others] has keeps the value of [a], and no key of [a] is ever
    removed. *)
Theorem merge_last_wins a pre m post k v :
  m !! k = Some v ->
  Forall (fun m' : gmap string Value => m' !! k = None) post ->
  merge a (pre ++ m :: post) !! k = Some v /\
  (forall k', Forall (fun m' : gmap string Value => m' !! k' = None) (pre ++ m :: post) ->
     merge a (pre ++ m :: post) !! k' = a !! k') /\
  dom a ⊆ dom (merge a (pre ++ m :: post)).
Proof.
  intros Hm Hpost. split; [|split].
  - rewrite merge_app.
    change (merge (merge a pre) (m :: post)) with (merge (merge1 (merge a pre) m) post).
    rewrite lookup_merge_absent by done. by rewrite lookup_merge1, Hm.
  - intros k' Hall. by apply lookup_merge_absent.
  - generalize (pre ++ m :: post). intros l. revert a.
    induction l as [|x l IH]; intros a; [done|].
    change (merge a (x :: l)) with (merge (merge1 a x) l).
    etrans; [|apply IH]. rewrite merge1_union. set_solver.
Qed.

Section Further.

Variable Marshal : gmap string Value -> list byte + error.
Variable url_error : string -> option error.
Variable Do : nat -> Request -> DoResult.

(** *** Send *)

(** In non-minimal mode the default properties win: every key they have
    is encoded with their value, whatever the caller put there, and every
    other key but [timestamp] is the caller's. *)
Theorem defaults_overwrite_record now c msg :
  MinimalLog c = false ->
  (forall k d, Defaults c !! k = Some d -> (Send Marshal now c msg).1 !! k = Some d) /\
  (forall k, Defaults c !! k = None -> k <> "timestamp" ->
     (Send Marshal now c msg).1 !! k = msg !! k).
Proof.
  intros Hmin. rewrite Send_fst. split.
  - intros k d Hd. by rewrite lookup_prepare_full, Hd.
  - intros k Hd Hk. rewrite lookup_prepare_full, Hd by done.
    by rewrite bool_decide_eq_false_2.
Qed.

Lemma prepare_idempotent now1 now2 c c' msg :
  MinimalLog c' = MinimalLog c ->
  Defaults c' = Defaults c ->
  prepare now2 c' (prepare now1 c msg) = prepare now1 c msg.
Proof.
  intros Hm Hd. apply map_eq. intros k.
  destruct (MinimalLog c) eqn:Hmin.
  - rewrite (lookup_prepare_minimal Marshal now2 c') by congruence.
    rewrite (lookup_prepare_minimal Marshal now1 c) by done.
    by case_bool_decide.
  - rewrite (lookup_prepare_full now2 c') by congruence.
    rewrite !(lookup_prepare_full now1 c) by done. rewrite Hd.
    destruct (Defaults c !! k) eqn:Hk; [done|].
    case_bool_decide as Hts; [|done]. subst k. rewrite Hk.
    rewrite bool_decide_eq_true_2 by done.
    by destruct (msg !! "timestamp").
Qed.

(** [Send] rewrites the map it is given, so a map that is sent again is
    encoded as it was the first time: the second call changes nothing in
    it, and the timestamp of the first call stays. *)
Theorem resubmitted_map_is_stable now1 now2 c c' msg :
  MinimalLog c' = MinimalLog c ->
  Defaults c' = Defaults c ->
  (Send Marshal now2 c' (Send Marshal now1 c msg).1).1 = (Send Marshal now1 c msg).1.
Proof. intros Hm Hd. rewrite !Send_fst. by apply prepare_idempotent. Qed.

(** A [Send] that does not return nil (the encoder refused the record, or
    the type assertion on [partnerID] panicked) leaves the client as it
    was, mirror included, and starts no flush. *)
Theorem rejected_Send_changes_nothing now c msg :
  ret (Send Marshal now c msg).2 <> Nil ->
  after (Send Marshal now c msg).2 = c /\
  go_Flush (Send Marshal now c msg).2 = false.
Proof.
  unfold Send. destruct (tagbuffer_of _) as [k|]; [|done].
  destruct (Marshal _) as [json|e]; [|done]. cbn. done.
Qed.

(** A [Send] that returns nil appends the encoded record at the end of the
    queue of its group, leaves every other group as it was, mirrors the
    same bytes and a newline to the writer, and adds one to the group count
    exactly when the group is new. *)
Theorem accepted_Send_frame now c msg :
  ret (Send Marshal now c msg).2 = Nil ->
  exists k json,
    tagbuffer_of (Send Marshal now c msg).1 = Some k /\
    Marshal (Send Marshal now c msg).1 = inl json /\
    let c' := after (Send Marshal now c msg).2 in
    queue (buffer c') k = queue (buffer c) k ++ [json] /\
    (forall k', k' <> k -> buffer c' !! k' = buffer c !! k') /\
    Writer c' = Fprint (Writer c) (json ++ nl) /\
    len_buffer (buffer c') =
      len_buffer (buffer c) + match buffer c !! k with Some _ => 0 | None => 1 end /\
    (tags c', Level_ c', BufferSize c', Defaults c', Endpoint c', MinimalLog c') =
    (tags c, Level_ c, BufferSize c, Defaults c, Endpoint c, MinimalLog c).
Proof.
  intros Hret. rewrite Send_fst.
  destruct (Send_Nil_inv Marshal now c msg Hret) as (k & json & Hk & Hj & ->).
  exists k, json. split; [done|]. split; [done|]. cbn. repeat split.
  - unfold queue at 1. by rewrite lookup_insert_eq.
  - intros k' Hne. by rewrite lookup_insert_ne.
  - unfold len_buffer. rewrite map_size_insert.
    destruct (buffer c !! k); unfold id; lia.
Qed.

(** A record for a group that is already in the buffer leaves the group
    count as it is: below the threshold it starts no flush, however many
    records the group holds. *)
Theorem existing_group_starts_no_flush now c msg k :
  ret (Send Marshal now c msg).2 = Nil ->
  tagbuffer_of (Send Marshal now c msg).1 = Some k ->
  is_Some (buffer c !! k) ->
  len_buffer (buffer c) < BufferSize c ->
  go_Flush (Send Marshal now c msg).2 = false /\
  len_buffer (buffer (after (Send Marshal now c msg).2)) = len_buffer (buffer c) /\
  is_Some (buffer (after (Send Marshal now c msg).2) !! k).
Proof.
  intros Hret Hk [q Hq] Hlt. rewrite Send_fst in Hk.
  destruct (Send_Nil_inv Marshal now c msg Hret) as (k0 & json & Hk0 & _ & ->).
  assert (k0 = k) as -> by congruence. cbn.
  assert (Hsz : len_buffer (<[k := queue (buffer c) k ++ [json]]> (buffer c))
                = len_buffer (buffer c)).
  { unfold len_buffer. by rewrite map_size_insert, Hq. }
  rewrite Hsz. split; [apply Z.leb_gt; lia|]. split; [done|].
  rewrite lookup_insert_eq. eauto.
Qed.

(** With a threshold of 1 or less every [Send] that appends and every
    [Write] starts a flush. *)
Theorem threshold_one_always_flushes c :
  BufferSize c <= 1 ->
  (forall now msg,
     ret (Send Marshal now c msg).2 = Nil -> go_Flush (Send Marshal now c msg).2 = true) /\
  (forall b, go_Flush (Write c b).2 = true).
Proof.
  intros Hsz.
  assert (Hpos : forall k q, 1 <= len_buffer (<[k := q]> (buffer c))).
  { intros k q. unfold len_buffer. rewrite map_size_insert.
    destruct (buffer c !! k) eqn:E; unfold id; [|lia].
    assert (size (buffer c) <> 0%nat); [|lia].
    intros H0. apply map_size_empty_iff in H0. rewrite H0 in E. by rewrite lookup_empty in E. }
  split.
  - intros now msg Hret.
    destruct (Send_Nil_inv Marshal now c msg Hret) as (k & json & _ & _ & ->).
    cbn. apply Z.leb_le. specialize (Hpos k (queue (buffer c) k ++ [json])). lia.
  - intros b. cbn. apply Z.leb_le.
    specialize (Hpos "notag" (queue (buffer c) "notag" ++ [b])). lia.
Qed.

(** *** Write *)





(** *** Tag, tagsList and New *)

Lemma Tag_fold (ts l : list string) :
  fold_left (fun acc tag => acc ++ [tag]) ts l = l ++ ts.
Proof.
  revert l. induction ts as [|t ts IH]; intros l; cbn; [by rewrite app_nil_r|].
  by rewrite IH, <- app_assoc.
Qed.

(** [Tag] adds its tags after the ones the client has, in the order given,
    and changes nothing else; two calls add up, and [tagsList] is the
    comma-joined list. *)
Theorem Tag_appends c ts1 ts2 :
  tags (Tag c ts1) = tags c ++ ts1 /\
  Tag (Tag c ts1) ts2 = Tag c (ts1 ++ ts2) /\
  Tag c ts1 = set_tags c (tags c ++ ts1) /\
  tagsList (Tag c ts1) = strings_Join (tags c ++ ts1) ",".
Proof.
  assert (H : forall c ts, Tag c ts = set_tags c (tags c ++ ts)).
  { intros c0 ts. unfold Tag. by rewrite Tag_fold. }
  split; [by rewrite H|]. split; [|split; [done|by rewrite H]].
  rewrite !H. cbn. by rewrite app_assoc.
Qed.

Lemma append_empty_r (s : string) : s +:+ EmptyString = s.
Proof.
  induction s as [|a s IH]; [reflexivity|].
  change (String a (s +:+ EmptyString) = String a s). by f_equal.
Qed.

(** [New] puts the token at the end of the bulk URL, whatever the token
    is, and returns a client of level INFO with a flush interval of five
    seconds, an empty buffer, no mirror, the tags it was given, and the
    host name as the only default property, when there is one. *)
Theorem New_client Hostname token bufferSize minLog ts :
  let c := New Hostname token bufferSize minLog ts in
  Endpoint c = "https://logs-01.loggly.com/bulk/" +:+ token /\
  Token c = token /\
  Level_ c = INFO /\
  FlushInterval c = 5000000000 /\
  BufferSize c = bufferSize /\
  MinimalLog c = minLog /\
  buffer c = ∅ /\
  Writer c = None /\
  tags c = ts /\
  tagsList c = strings_Join ts "," /\
  Defaults c = match Hostname with
               | inl host => {["hostname" := VString host]}
               | inr _ => ∅
               end.
Proof.
  cbv zeta.
  assert (Ht : tags (New Hostname token bufferSize minLog ts) = ts).
  { unfold New. destruct (Tag_appends
      (mkClient None INFO bufferSize (5 * Second) (Replace_first api "{token}" token)
         token (match Hostname with inl host => <["hostname" := VString host]> ∅ | inr _ => ∅ end)
         ∅ [] minLog) ts []) as [-> _]. done. }
  split; [cbn; by rewrite append_empty_r|].
  do 8 (split; [done|]).
  split; [unfold tagsList; by rewrite Ht|].
  cbn. by destruct Hostname.
Qed.

(** *** The severity wrappers *)

(** A wrapper whose severity is at least the level of the client hands
    [Send] the record of its level name and the component, with the
    property maps merged over it: the record has that level and component
    unless a property map has the key, and then the last such map's value. *)
Theorem wrapper_at_level_sends w now c t props :
  Level_ c <= severity w ->
  let msg := merge (<["component" := VString t]> {["level" := VString (level_name w)]}) props in
  call Marshal w now c t props = (Send Marshal now c msg).2 /\
  (Forall (fun m : gmap string Value => m !! "level" = None) props ->
     msg !! "level" = Some (VString (level_name w))) /\
  (Forall (fun m : gmap string Value => m !! "component" = None) props ->
     msg !! "component" = Some (VString t)) /\
  (forall pre m post k v,
     props = pre ++ m :: post -> m !! k = Some v ->
     Forall (fun m' : gmap string Value => m' !! k = None) post ->
     msg !! k = Some v).
Proof.
  intros Hle. cbv zeta. split; [|split; [|split]].
  - destruct w; cbn [call severity level_name] in *;
      [unfold Debug|unfold Info|unfold Notice|unfold Warn
      |unfold Error|unfold Critical|unfold Alert|unfold Emergency];
      (destruct (_ >? _) eqn:E; [|done]);
      rewrite Z.gtb_ltb in E; apply Z.ltb_lt in E; lia.
  - intros Hall. rewrite lookup_merge_absent by done.
    by rewrite lookup_insert_ne, lookup_singleton_eq.
  - intros Hall. rewrite lookup_merge_absent by done.
    by rewrite lookup_insert_eq.
  - intros pre m post k v -> Hm Hpost. rewrite merge_app.
    change (merge ?a (m :: post)) with (merge (merge1 a m) post).
    rewrite lookup_merge_absent by done. by rewrite lookup_merge1, Hm.
Qed.

(** *** Flush *)

Lemma queue_insert_eq (b : gmap string (list (list byte))) k q :
  queue (<[k := q]> b) k = q.
Proof. unfold queue. by rewrite lookup_insert_eq. Qed.

Lemma queue_insert_ne (b : gmap string (list (list byte))) k k' q :
  k <> k' -> queue (<[k := q]> b) k' = queue b k'.
Proof. intros. unfold queue. by rewrite lookup_insert_ne. Qed.

Lemma Flush_range_all_empty (url' : string -> option error)
    (Do' : nat -> Request -> DoResult) ks c sent :
  Forall (fun k => queue (buffer c) k = []) ks ->
  Flush_range url' Do' ks c sent = mkFlushed None c sent.
Proof.
  induction ks as [|k ks IH]; intros Hall; [done|].
  apply Forall_cons in Hall as [Hk Hall]. cbn [Flush_range].
  rewrite Hk. cbn. by apply IH.
Qed.

(** A flush over groups that are all empty, an empty buffer among them,
    issues no request, returns nil and leaves the client as it was. *)
Theorem Flush_of_empty_groups order c :
  Forall (fun k => queue (buffer c) k = []) order ->
  Flush url_error Do order c = mkFlushed None c [].
Proof. apply Flush_range_all_empty. Qed.

Lemma Flush_range_frame ks c sent k :
  k ∉ ks ->
  buffer (flush_client (Flush_range url_error Do ks c sent)) !! k = buffer c !! k.
Proof.
  revert c sent. induction ks as [|k0 ks IH]; intros c sent Hk; [done|].
  apply not_elem_of_cons in Hk as [Hne Hk]. cbn [Flush_range].
  destruct (len_queue (queue (buffer c) k0) =? 0); [by apply IH|].
  destruct (ship _ _ _ _ _ _) as [[err|] sent'].
  - cbn. by rewrite lookup_insert_ne.
  - rewrite IH by done. cbn. by rewrite lookup_insert_ne.
Qed.

(** A flush changes the buffer and nothing else of the client; it drains
    whole groups: after the pass each queue is as it was or empty, and a
    group that [range] did not yield is as it was. *)
Theorem Flush_drains_whole_groups order c :
  let c' := flush_client (Flush url_error Do order c) in
  c' = set_buffer c (buffer c') /\
  (forall k, queue (buffer c') k = [] \/ queue (buffer c') k = queue (buffer c) k) /\
  (forall k, k ∉ order -> buffer c' !! k = buffer c !! k).
Proof.
  cbv zeta. unfold Flush.
  destruct (Flush_range_spec url_error Do order c []) as (b & extra & Hc & _ & Hq & _).
  split; [|split].
  - rewrite Hc. by destruct c.
  - intros k. rewrite Hc. apply Hq.
  - intros k Hk. by apply Flush_range_frame.
Qed.

Lemma Flush_range_error ks c sent e :
  flush_err (Flush_range url_error Do ks c sent) = Some e ->
  url_error (Endpoint c) = Some e \/
  exists sent' req,
    flush_sent (Flush_range url_error Do ks c sent) = sent' ++ [req] /\
    Do (length sent') req = DoError e.
Proof.
  revert c sent. induction ks as [|k ks IH]; intros c sent; [done|].
  cbn [Flush_range].
  destruct (len_queue (queue (buffer c) k) =? 0); [apply IH|].
  set (c1 := set_buffer c (<[k := []]> (buffer c))).
  set (bd := bytes_Join (queue (buffer c) k) nl).
  destruct (ship_cases url_error Do (Endpoint c1) k bd sent) as [(e' & He & ->)|(_ & Hs)].
  { cbn. intros [= ->]. by left. }
  cbn zeta in Hs.
  destruct (Do (length sent) (request_of (Endpoint c1) k bd)) as [e'|st rb] eqn:E;
    rewrite Hs.
  - cbn. intros [= ->]. right. eauto.
  - destruct (st >=? 400); [done|]. intros H. by apply (IH c1) in H.
Qed.

(** A flush returns a non-nil error only when the endpoint does not parse
    or when the transport failed, and then it is the error of the last
    request it issued: the pass stopped there. A pass whose requests all
    got a response returns nil, whatever the statuses. *)
Theorem Flush_error_provenance order c e :
  flush_err (Flush url_error Do order c) = Some e ->
  url_error (Endpoint c) = Some e \/
  exists sent' req,
    flush_sent (Flush url_error Do order c) = sent' ++ [req] /\
    Do (length sent') req = DoError e.
Proof. apply Flush_range_error. Qed.

Lemma request_of_shape endpoint k body :
  Method (request_of endpoint k body) = "POST" /\
  URL (request_of endpoint k body) = endpoint /\
  Header_Values (request_of endpoint k body) "User-Agent" = ["go-loggly (version: 0.4.3)"] /\
  Header_Values (request_of endpoint k body) "Content-Type" = ["text/plain"] /\
  length (Header (request_of endpoint k body)) = (if bool_decide (k = "notag") then 3 else 4)%nat.
Proof.
  unfold request_of, add_headers.
  destruct (decide (k = "notag")) as [->|Hk].
  - rewrite bool_decide_eq_false_2 by (intros H; by apply H). done.
  - rewrite bool_decide_eq_true_2 by done.
    rewrite (bool_decide_eq_false_2 _ Hk). done.
Qed.

(** Every request of a flush is a POST to the endpoint of the client with
    the user agent of the package and its version, the content type
    [text/plain], and no header besides these two, the content length and
    the tag. *)
Theorem Flush_request_shape order c req :
  req ∈ flush_sent (Flush url_error Do order c) ->
  Method req = "POST" /\
  URL req = Endpoint c /\
  Header_Values req "User-Agent" = ["go-loggly (version: 0.4.3)"] /\
  Header_Values req "Content-Type" = ["text/plain"] /\
  length (Header req) = (if bool_decide (group_of req = "notag") then 3 else 4)%nat.
Proof.
  intros Hin. unfold Flush in Hin.
  destruct (Flush_range_spec url_error Do order c []) as (b & extra & _ & _ & _ & Hs & Hall).
  rewrite Hs in Hin. cbn in Hin. rewrite Forall_forall in Hall.
  destruct (Hall req Hin) as (k & _ & _ & _ & ->).
  rewrite group_of_request_of. apply request_of_shape.
Qed.

Lemma Flush_range_groups ks c sent :
  exists extra,
    flush_sent (Flush_range url_error Do ks c sent) = sent ++ extra /\
    sublist (group_of <$> extra) ks.
Proof.
  revert c sent. induction ks as [|k ks IH]; intros c sent.
  - exists []. cbn. by rewrite app_nil_r.
  - cbn [Flush_range].
    destruct (len_queue (queue (buffer c) k) =? 0).
    { destruct (IH c sent) as (extra & -> & Hsub). exists extra. split; [done|].
      by apply sublist_cons. }
    set (c1 := set_buffer c (<[k := []]> (buffer c))).
    set (bd := bytes_Join (queue (buffer c) k) nl).
    assert (Hone : sublist (group_of <$> [request_of (Endpoint c1) k bd]) (k :: ks)).
    { cbn. rewrite group_of_request_of. apply sublist_skip, sublist_nil_l. }
    destruct (ship_cases url_error Do (Endpoint c1) k bd sent) as [(e & _ & ->)|(_ & Hs)].
    { exists []. cbn. rewrite app_nil_r. split; [done|apply sublist_nil_l]. }
    cbn zeta in Hs.
    destruct (Do (length sent) (request_of (Endpoint c1) k bd)) as [e|st rb]; rewrite Hs.
    { by exists [request_of (Endpoint c1) k bd]. }
    destruct (st >=? 400); [by exists [request_of (Endpoint c1) k bd]|].
    destruct (IH c1 (sent ++ [request_of (Endpoint c1) k bd])) as (extra & -> & Hsub).
    exists (request_of (Endpoint c1) k bd :: extra). split; [by rewrite <- app_assoc|].
    cbn. rewrite group_of_request_of. by apply sublist_skip.
Qed.

(** The requests of a flush follow the order in which [range] yields the
    keys, at most one request for each key it yields: their groups are a
    sublist of that order, and no group is posted twice in a pass. *)
Theorem Flush_requests_follow_range order c :
  sublist (group_of <$> flush_sent (Flush url_error Do order c)) order /\
  (length (flush_sent (Flush url_error Do order c)) <= length order)%nat /\
  (NoDup order -> NoDup (group_of <$> flush_sent (Flush url_error Do order c))).
Proof.
  unfold Flush. destruct (Flush_range_groups order c []) as (extra & -> & Hsub).
  cbn. split; [done|]. split.
  - apply sublist_length in Hsub. by rewrite length_fmap in Hsub.
  - intros Hnd. by eapply sublist_NoDup.
Qed.

Lemma Flush_range_emptied ks c sent k :
  url_error (Endpoint c) = None ->
  (forall n r, exists st b, Do n r = DoResponse st b /\ st < 400) ->
  k ∈ ks ->
  queue (buffer (flush_client (Flush_range url_error Do ks c sent))) k = [].
Proof.
  intros Hurl Hok. revert c sent Hurl.
  induction ks as [|k0 ks IH]; intros c sent Hurl Hin; [by apply elem_of_nil in Hin|].
  assert (Hkeep : forall c0 s0, queue (buffer c0) k = [] ->
            queue (buffer (flush_client (Flush_range url_error Do ks c0 s0))) k = []).
  { intros c0 s0 H0.
    destruct (Flush_range_spec url_error Do ks c0 s0) as (b & extra & -> & _ & Hq & _).
    cbn. destruct (Hq k) as [?|Heq]; [done|by rewrite Heq]. }
  cbn [Flush_range].
  destruct (len_queue (queue (buffer c) k0) =? 0) eqn:Hlen.
  { apply elem_of_cons in Hin as [->|Hin]; [|by apply IH].
    apply Hkeep. apply Z.eqb_eq in Hlen. unfold len_queue in Hlen.
    destruct (queue (buffer c) k0); [done|cbn in Hlen; lia]. }
  set (c1 := set_buffer c (<[k0 := []]> (buffer c))).
  set (bd := bytes_Join (queue (buffer c) k0) nl).
  destruct (ship_cases url_error Do (Endpoint c1) k0 bd sent) as [(e & He & _)|(_ & Hs)].
  { cbn in He. congruence. }
  cbn zeta in Hs.
  destruct (Hok (length sent) (request_of (Endpoint c1) k0 bd)) as (st & b & Hdo & Hst).
  rewrite Hdo in Hs. rewrite Hs.
  replace (st >=? 400) with false by (symmetry; rewrite Z.geb_leb; apply Z.leb_gt; lia).
  destruct (decide (k = k0)) as [->|Hne].
  - apply Hkeep. cbn. apply queue_insert_eq.
  - apply elem_of_cons in Hin as [?|Hin]; [done|]. by apply IH.
Qed.

(** Where the endpoint parses and every request is answered with a status
    below 400, a flush returns nil and leaves every group that [range]
    yielded empty; a second flush over the same keys then issues no
    request and changes nothing, whatever the server would answer. *)
Theorem successful_Flush_empties order c :
  url_error (Endpoint c) = None ->
  (forall n r, exists st b, Do n r = DoResponse st b /\ st < 400) ->
  let c' := flush_client (Flush url_error Do order c) in
  flush_err (Flush url_error Do order c) = None /\
  (forall k, k ∈ order -> queue (buffer c') k = []) /\
  (forall Do', Flush url_error Do' order c' = mkFlushed None c' []).
Proof.
  intros Hurl Hok. cbv zeta.
  assert (Hempty : forall k, k ∈ order ->
            queue (buffer (flush_client (Flush url_error Do order c))) k = []).
  { intros k Hk. by apply Flush_range_emptied. }
  split; [|split; [exact Hempty|]].
  - destruct (flush_err (Flush url_error Do order c)) as [e|] eqn:E; [|done].
    apply Flush_range_error in E as [E|(sent' & req & _ & E)]; [congruence|].
    destruct (Hok (length sent') req) as (st & b & Hdo & _). congruence.
  - intros Do'. unfold Flush at 1. apply Flush_range_all_empty.
    apply Forall_forall. intros k Hk. by apply Hempty.
Qed.

Lemma Flush_range_handed_over ks c sent k :
  queue (buffer c) k <> [] ->
  queue (buffer (flush_client (Flush_range url_error Do ks c sent))) k = [] ->
  url_error (Endpoint c) <> None \/
  request_of (Endpoint c) k (bytes_Join (queue (buffer c) k) nl)
    ∈ flush_sent (Flush_range url_error Do ks c sent).
Proof.
  revert c sent. induction ks as [|k0 ks IH]; intros c sent Hne Hemp; [done|].
  cbn [Flush_range] in *.
  destruct (len_queue (queue (buffer c) k0) =? 0); [by apply IH|].
  set (c1 := set_buffer c (<[k0 := []]> (buffer c))) in *.
  set (bd := bytes_Join (queue (buffer c) k0) nl) in *.
  destruct (ship_cases url_error Do (Endpoint c1) k0 bd sent) as [(e & He & _)|(Hparsed & Hs)].
  { left. cbn in He. congruence. }
  right. cbn zeta in Hs.
  assert (Hstop : forall r, queue (buffer (flush_client
                      (mkFlushed r c1 (sent ++ [request_of (Endpoint c1) k0 bd])))) k = [] ->
            request_of (Endpoint c) k (bytes_Join (queue (buffer c) k) nl)
              ∈ flush_sent (mkFlushed r c1 (sent ++ [request_of (Endpoint c1) k0 bd]))).
  { intros r H. cbn in H |- *. destruct (decide (k0 = k)) as [->|Hk].
    - apply elem_of_app. right. constructor.
    - rewrite queue_insert_ne in H by done. done. }
  destruct (Do (length sent) (request_of (Endpoint c1) k0 bd)) as [e|st rb];
    rewrite Hs in Hemp |- *; [by apply Hstop|].
  destruct (st >=? 400); [by apply Hstop|].
  destruct (decide (k0 = k)) as [->|Hk].
  - destruct (Flush_range_sent_prefix url_error Do ks c1
                (sent ++ [request_of (Endpoint c1) k bd])) as [extra ->].
    rewrite <- app_assoc. apply elem_of_app. right. constructor.
  - assert (Hq : queue (buffer c1) k = queue (buffer c) k)
      by (cbn; by apply queue_insert_ne).
    destruct (IH c1 (sent ++ [request_of (Endpoint c1) k0 bd])) as [Hurl|Hin];
      [by rewrite Hq|done| |].
    + by destruct Hurl.
    + by rewrite Hq in Hin.
Qed.

(** A flush never drops a batch unseen: a queue that the pass has emptied
    was joined into a request that was handed to [client.Do], unless the
    endpoint does not parse. *)
Theorem Flush_hands_over_what_it_drains order c k :
  queue (buffer c) k <> [] ->
  queue (buffer (flush_client (Flush url_error Do order c))) k = [] ->
  url_error (Endpoint c) <> None \/
  exists req,
    req ∈ flush_sent (Flush url_error Do order c) /\
    Body req = bytes_Join (queue (buffer c) k) nl /\
    group_of req = k.
Proof.
  intros Hne Hemp.
  destruct (Flush_range_handed_over order c [] k Hne Hemp) as [?|Hin]; [by left|right].
  eexists. split; [exact Hin|].
  destruct (Header_Values_request_of (Endpoint c) k (bytes_Join (queue (buffer c) k) nl))
    as (_ & _ & Hb).
  split; [exact Hb|apply group_of_request_of].
Qed.

(** *** From submission to delivery *)

(** What [Send] queued is what the next flush posts: where no delivery
    fails and [range] yields the group of the record, the flush issues a
    request whose body is the queue of that group joined by newlines, the
    new record last, with the tag of the group unless it is "notag". *)
Theorem sent_record_is_posted now c msg order :
  ret (Send Marshal now c msg).2 = Nil ->
  url_error (Endpoint c) = None ->
  (forall n r, exists st b, Do n r = DoResponse st b /\ st < 400) ->
  exists k json,
    tagbuffer_of (Send Marshal now c msg).1 = Some k /\
    Marshal (Send Marshal now c msg).1 = inl json /\
    (k ∈ order ->
     exists req,
       req ∈ flush_sent (Flush url_error Do order (after (Send Marshal now c msg).2)) /\
       Body req = bytes_Join (queue (buffer c) k ++ [json]) nl /\
       Header_Values req "X-Loggly-Tag" = if bool_decide (k = "notag") then [] else [k]).
Proof.
  intros Hret Hurl Hok.
  destruct (Send_Nil_encoded Marshal now c msg Hret) as (k & json & Hk & Hj & Hq).
  exists k, json. split; [done|]. split; [done|]. intros Hin.
  assert (He : Endpoint (after (Send Marshal now c msg).2) = Endpoint c).
  { destruct (Send_Nil_inv Marshal now c msg Hret) as (? & ? & _ & _ & ->). done. }
  set (c' := after (Send Marshal now c msg).2) in *.
  exists (request_of (Endpoint c') k (bytes_Join (queue (buffer c') k) nl)).
  destruct (Header_Values_request_of (Endpoint c') k (bytes_Join (queue (buffer c') k) nl))
    as (_ & Ht & Hb).
  split; [|by rewrite Hb, Ht, Hq].
  apply Flush_range_ships_all; [congruence|done|done|].
  rewrite Hq. by destruct (queue (buffer c) k).
Qed.


(** *** start *)

(** The periodic flusher only ever empties queues: after any number of
    its turns the client differs from the one it started with in its
    buffer alone, which has the same keys, each queue as it was or
    empty. *)
Theorem start_only_empties turns c :
  let c' := start url_error Do turns c in
  c' = set_buffer c (buffer c') /\
  dom (buffer c') = dom (buffer c) /\
  (forall k, queue (buffer c') k = [] \/ queue (buffer c') k = queue (buffer c) k).
Proof.
  cbv zeta. revert c. induction turns as [|order turns IH]; intros c.
  - cbn. split; [by destruct c|]. split; [done|]. by right.
  - change (start url_error Do (order :: turns) c)
      with (start url_error Do turns (flush_client (Flush url_error Do order c))).
    unfold Flush.
    destruct (Flush_range_spec url_error Do order c []) as (b & extra & -> & Hd & Hq & _).
    destruct (IH (set_buffer c b)) as (Hc & Hd' & Hq').
    split; [|split].
    + rewrite Hc at 1. by destruct c.
    + rewrite Hd'. cbn. done.
    + intros k. destruct (Hq' k) as [?|Heq]; [by left|].
      rewrite Heq. cbn. apply Hq.
Qed.

(** *** Interleavings *)

Lemma step_dom i w :
  dom (buffer (shared w)) ⊆ dom (buffer (shared (step url_error Do i w))) /\
  BufferSize (shared (step url_error Do i w)) = BufferSize (shared w).
Proof.
  unfold step. destruct (tasks w !! i) as [t|]; [|done].
  destruct t as [k json order|ks sent|k ks sent|k ks q sent|k ks q sent|err sent]; cbn.
  - split; [apply dom_insert_subseteq|done].
  - destruct ks as [|k ks]; [done|].
    by destruct (len_queue (queue (buffer (shared w)) k) =? 0).
  - done.
  - split; [apply dom_insert_subseteq|done].
  - by destruct (ship _ _ _ _ _ _) as [[?|] ?].
  - done.
Qed.

(** Under every schedule of producers and flushers the buffer keeps its
    keys and the threshold its value: no interleaving removes a group, so
    the count that the flush trigger reads never decreases. *)
Theorem keys_grow_under_every_schedule schedule w :
  dom (buffer (shared w)) ⊆ dom (buffer (shared (run url_error Do schedule w))) /\
  BufferSize (shared (run url_error Do schedule w)) = BufferSize (shared w) /\
  len_buffer (buffer (shared w)) <= len_buffer (buffer (shared (run url_error Do schedule w))).
Proof.
  assert (H : dom (buffer (shared w)) ⊆ dom (buffer (shared (run url_error Do schedule w))) /\
              BufferSize (shared (run url_error Do schedule w)) = BufferSize (shared w)).
  { revert w. induction schedule as [|i schedule IH]; intros w; [done|].
    change (run url_error Do (i :: schedule) w)
      with (run url_error Do schedule (step url_error Do i w)).
    destruct (IH (step url_error Do i w)) as [Hd Hs].
    destruct (step_dom i w) as [Hd1 Hs1].
    split; [by etrans|by rewrite Hs]. }
  destruct H as [Hd Hs]. split; [done|]. split; [done|].
  rewrite !len_buffer_dom. by apply inj_le, subseteq_size.
Qed.

(** The Content-Length value of a flush has at most four bytes. *)
Lemma string_of_int_length n :
  (1 <= String.length (string_of_int n) <= 4)%nat.
Proof.
  unfold string_of_int.
  repeat match goal with |- context [if ?b then _ else _] => destruct b end; cbn; lia.
Qed.

(** The header that [Flush] sets as Content-Length is one to four bytes
    long whatever the size of the body, and above 1,114,111 bytes every
    body gets the same value, the encoding of U+FFFD. *)
Theorem Content_Length_is_short order c req :
  req ∈ flush_sent (Flush url_error Do order c) ->
  exists v,
    Header_Values req "Content-Length" = [v] /\
    (1 <= String.length v <= 4)%nat /\
    (1114111 < len (Body req) ->
     v = String (chr 239) (String (chr 191) (String (chr 189) EmptyString))).
Proof.
  intros Hin. unfold Flush in Hin.
  destruct (Flush_range_spec url_error Do order c []) as (b & extra & _ & _ & _ & Hs & Hall).
  rewrite Hs in Hin. cbn in Hin. rewrite Forall_forall in Hall.
  destruct (Hall req Hin) as (k & _ & _ & _ & ->).
  destruct (Header_Values_request_of (Endpoint c) k
              (bytes_Join (queue (buffer c) k) nl)) as (Hl & _ & Hb).
  eexists. split; [exact Hl|]. split; [apply string_of_int_length|].
  rewrite Hb. intros Hbig. unfold string_of_int.
  replace (1114111 <? len (bytes_Join (queue (buffer c) k) nl)) with true
    by (symmetry; by apply Z.ltb_lt).
  by rewrite orb_true_r.
Qed.

End Further.

(** *** The further properties at concrete inputs *)

Lemma merge_last_wins_witness :
  let a : gmap string Value := {["level" := VString "info"]} in
  let pre : list (gmap string Value) := [{["level" := VString "notice"]}] in
  let m : gmap string Value := {["level" := VString "debug"]} in
  let post : list (gmap string Value) := [{["line" := VInt 3]}] in
  merge a (pre ++ m :: post) !! "level" = Some (VString "debug").
Proof.
  cbv zeta.
  refine (proj1 (merge_last_wins {["level" := VString "info"]}
                   [{["level" := VString "notice"]}] {["level" := VString "debug"]}
                   [{["line" := VInt 3]}] "level" (VString "debug") _ _)).
  - vm_compute. reflexivity.
  - constructor; [vm_compute; reflexivity|constructor].
Defined.

Lemma defaults_overwrite_record_witness :
  let c := New (inl "web-1") "token" 2 false [] in
  let msg : gmap string Value := {["hostname" := VString "mine"]} in
  MinimalLog c = false /\
  Defaults c !! "hostname" = Some (VString "web-1") /\
  (Send json_Marshal 1500000000 c msg).1 !! "hostname" = Some (VString "web-1").
Proof.
  cbv zeta.
  assert (Hd : Defaults (New (inl "web-1") "token" 2 false []) !! "hostname"
               = Some (VString "web-1")) by (vm_compute; reflexivity).
  split; [reflexivity|]. split; [exact Hd|].
  exact (proj1 (defaults_overwrite_record json_Marshal 1500000000
                  (New (inl "web-1") "token" 2 false []) {["hostname" := VString "mine"]}
                  eq_refl) "hostname" (VString "web-1") Hd).
Defined.

Lemma resubmitted_map_is_stable_witness :
  let c := New (inl "web-1") "token" 2 false [] in
  let once := (Send json_Marshal 1500000000 c ∅).1 in
  let twice := (Send json_Marshal 9900000000 c once).1 in
  twice = once /\ twice !! "timestamp" = Some (VInt 1500).
Proof.
  cbv zeta.
  pose proof (resubmitted_map_is_stable json_Marshal 1500000000 9900000000
                (New (inl "web-1") "token" 2 false []) (New (inl "web-1") "token" 2 false [])
                ∅ eq_refl eq_refl) as H.
  split; [exact H|]. rewrite H. vm_compute. reflexivity.
Defined.

Lemma rejected_Send_changes_nothing_witness :
  let c := client_with 2 ∅ {["a" := [[x61]]]} false in
  let msg : gmap string Value := {["payload" := VChan 0]} in
  ret (Send json_Marshal 1500000000 c msg).2 <> Nil /\
  after (Send json_Marshal 1500000000 c msg).2 = c /\
  go_Flush (Send json_Marshal 1500000000 c msg).2 = false.
Proof.
  cbv zeta.
  assert (Hr : ret (Send json_Marshal 1500000000 (client_with 2 ∅ {["a" := [[x61]]]} false)
                      {["payload" := VChan 0]}).2 <> Nil) by (vm_compute; discriminate).
  split; [exact Hr|].
  exact (rejected_Send_changes_nothing json_Marshal 1500000000 _ _ Hr).
Defined.

Lemma accepted_Send_frame_witness :
  let c := client_with 5 ∅ {["a" := [[x61]]]} false in
  let msg : gmap string Value := {["partnerID" := VString "b"]} in
  ret (Send json_Marshal 1500000000 c msg).2 = Nil /\
  exists k json,
    tagbuffer_of (Send json_Marshal 1500000000 c msg).1 = Some k /\
    json_Marshal (Send json_Marshal 1500000000 c msg).1 = inl json /\
    queue (buffer (after (Send json_Marshal 1500000000 c msg).2)) k =
      queue (buffer c) k ++ [json].
Proof.
  cbv zeta.
  assert (Hr : ret (Send json_Marshal 1500000000 (client_with 5 ∅ {["a" := [[x61]]]} false)
                      {["partnerID" := VString "b"]}).2 = Nil) by (vm_compute; reflexivity).
  split; [exact Hr|].
  destruct (accepted_Send_frame json_Marshal 1500000000 _ _ Hr)
    as (k & json & Hk & Hj & Hq & _).
  exists k, json. auto.
Defined.

Lemma existing_group_starts_no_flush_witness :
  let c := client_with 5 ∅ {["a" := [[x61]; [x62]; [x63]]]} false in
  let msg : gmap string Value := {["partnerID" := VString "a"]} in
  len_buffer (buffer c) < BufferSize c /\
  go_Flush (Send json_Marshal 1500000000 c msg).2 = false.
Proof.
  cbv zeta.
  assert (Hlt : len_buffer (buffer (client_with 5 ∅ {["a" := [[x61]; [x62]; [x63]]]} false))
                < BufferSize (client_with 5 ∅ {["a" := [[x61]; [x62]; [x63]]]} false))
    by (vm_compute; reflexivity).
  split; [exact Hlt|].
  refine (proj1 (existing_group_starts_no_flush json_Marshal 1500000000
                   (client_with 5 ∅ {["a" := [[x61]; [x62]; [x63]]]} false)
                   {["partnerID" := VString "a"]} "a" _ _ _ Hlt)).
  - vm_compute. reflexivity.
  - vm_compute. reflexivity.
  - eexists. vm_compute. reflexivity.
Defined.

Lemma threshold_one_always_flushes_witness :
  let c := New (inl "web-1") "token" 1 false [] in
  BufferSize c <= 1 /\
  go_Flush (Send json_Marshal 1500000000 c ∅).2 = true /\
  go_Flush (Write c [x61]).2 = true.
Proof.
  cbv zeta.
  assert (Hs : BufferSize (New (inl "web-1") "token" 1 false []) <= 1)
    by (vm_compute; discriminate).
  split; [exact Hs|].
  destruct (threshold_one_always_flushes json_Marshal _ Hs) as [HS HW].
  split; [apply HS; vm_compute; reflexivity|apply HW].
Defined.

Lemma wrapper_at_level_sends_witness :
  let c := New (inl "web-1") "token" 100 false [] in
  Level_ c <= severity WError /\
  call json_Marshal WError 1500000000 c "db" [] =
    (Send json_Marshal 1500000000 c
       (<["component" := VString "db"]> {["level" := VString "error"]})).2.
Proof.
  cbv zeta.
  assert (Hl : Level_ (New (inl "web-1") "token" 100 false []) <= severity WError)
    by (vm_compute; discriminate).
  split; [exact Hl|].
  exact (proj1 (wrapper_at_level_sends json_Marshal WError 1500000000 _ "db" [] Hl)).
Defined.

Lemma Flush_of_empty_groups_witness :
  let c := client_with 2 ∅ (<["a" := []]> {["b" := []]}) false in
  Flush url_ok (respond 500) ["a"; "b"; "c"] c = mkFlushed None c [].
Proof.
  cbv zeta. apply Flush_of_empty_groups.
  repeat (constructor; [vm_compute; reflexivity|]). constructor.
Defined.

Lemma Flush_error_provenance_witness :
  let c := client_with 2 ∅ {["a" := [[x61]]]} false in
  let refuse : nat -> Request -> DoResult := fun _ _ => DoError "connection refused" in
  flush_err (Flush url_ok refuse ["a"] c) = Some "connection refused" /\
  exists sent' req,
    flush_sent (Flush url_ok refuse ["a"] c) = sent' ++ [req] /\
    refuse (length sent') req = DoError "connection refused".
Proof.
  cbv zeta.
  assert (He : flush_err (Flush url_ok (fun _ _ => DoError "connection refused") ["a"]
                            (client_with 2 ∅ {["a" := [[x61]]]} false))
               = Some "connection refused") by (vm_compute; reflexivity).
  split; [exact He|].
  destruct (Flush_error_provenance url_ok (fun _ _ => DoError "connection refused") ["a"]
              (client_with 2 ∅ {["a" := [[x61]]]} false) "connection refused" He)
    as [Hurl|H]; [discriminate Hurl|exact H].
Defined.

Lemma Flush_request_shape_witness :
  let c := client_with 2 ∅ {["a" := [[x61]]]} false in
  let req := request_of (Endpoint c) "a" [x61] in
  req ∈ flush_sent (Flush url_ok (respond 200) ["a"] c) /\
  Method req = "POST" /\
  URL req = "https://logs-01.loggly.com/bulk/token".
Proof.
  cbv zeta.
  assert (Hin : request_of (Endpoint (client_with 2 ∅ {["a" := [[x61]]]} false)) "a" [x61]
                ∈ flush_sent (Flush url_ok (respond 200) ["a"]
                                (client_with 2 ∅ {["a" := [[x61]]]} false))).
  { assert (H : flush_sent (Flush url_ok (respond 200) ["a"]
                              (client_with 2 ∅ {["a" := [[x61]]]} false))
                = [request_of (Endpoint (client_with 2 ∅ {["a" := [[x61]]]} false)) "a" [x61]])
      by (vm_compute; reflexivity).
    rewrite H. constructor. }
  split; [exact Hin|].
  destruct (Flush_request_shape url_ok (respond 200) ["a"] _ _ Hin) as (Hm & Hu & _).
  split; [exact Hm|]. etrans; [exact Hu|]. vm_compute. reflexivity.
Defined.

Lemma successful_Flush_empties_witness :
  let c := client_with 2 ∅ (<["a" := [[x61]]]> {["b" := [[x62]; [x63]]]}) false in
  let F := Flush url_ok (respond 200) ["b"; "a"] c in
  flush_err F = None /\
  queue (buffer (flush_client F)) "a" = [] /\
  queue (buffer (flush_client F)) "b" = [] /\
  Flush url_ok (respond 500) ["b"; "a"] (flush_client F) = mkFlushed None (flush_client F) [].
Proof.
  cbv zeta.
  destruct (successful_Flush_empties url_ok (respond 200) ["b"; "a"]
              (client_with 2 ∅ (<["a" := [[x61]]]> {["b" := [[x62]; [x63]]]}) false))
    as (He & Hq & Hagain).
  - reflexivity.
  - intros n r. exists 200, []. split; [reflexivity|lia].
  - split; [exact He|]. split; [apply Hq; repeat constructor|].
    split; [apply Hq; repeat constructor|apply Hagain].
Defined.

Lemma sent_record_is_posted_witness :
  let c := New (inl "web-1") "token" 100 true [] in
  let msg : gmap string Value := {["partnerID" := VString "x"]} in
  ret (Send json_Marshal 1500000000 c msg).2 = Nil /\
  exists k json,
    tagbuffer_of (Send json_Marshal 1500000000 c msg).1 = Some k /\
    json_Marshal (Send json_Marshal 1500000000 c msg).1 = inl json /\
    (k ∈ ["x"] ->
     exists req,
       req ∈ flush_sent (Flush url_ok (respond 200) ["x"]
                           (after (Send json_Marshal 1500000000 c msg).2)) /\
       Body req = bytes_Join (queue (buffer c) k ++ [json]) nl /\
       Header_Values req "X-Loggly-Tag" = if bool_decide (k = "notag") then [] else [k]).
Proof.
  cbv zeta.
  assert (Hr : ret (Send json_Marshal 1500000000 (New (inl "web-1") "token" 100 true [])
                      {["partnerID" := VString "x"]}).2 = Nil) by (vm_compute; reflexivity).
  split; [exact Hr|].
  apply (sent_record_is_posted json_Marshal url_ok (respond 200)); [exact Hr|reflexivity|].
  intros n r. exists 200, []. split; [reflexivity|lia].
Defined.


Lemma Content_Length_is_short_witness :
  let c := client_with 2 ∅ {["a" := [[x61]]]} false in
  let req := request_of (Endpoint c) "a" [x61] in
  req ∈ flush_sent (Flush url_ok (respond 200) ["a"] c) /\
  exists v,
    Header_Values req "Content-Length" = [v] /\ (1 <= String.length v <= 4)%nat.
Proof.
  cbv zeta.
  assert (Hin : request_of (Endpoint (client_with 2 ∅ {["a" := [[x61]]]} false)) "a" [x61]
                ∈ flush_sent (Flush url_ok (respond 200) ["a"]
                                (client_with 2 ∅ {["a" := [[x61]]]} false))).
  { assert (H : flush_sent (Flush url_ok (respond 200) ["a"]
                              (client_with 2 ∅ {["a" := [[x61]]]} false))
                = [request_of (Endpoint (client_with 2 ∅ {["a" := [[x61]]]} false)) "a" [x61]])
      by (vm_compute; reflexivity).
    rewrite H. constructor. }
  split; [exact Hin|].
  destruct (Content_Length_is_short url_ok (respond 200) ["a"] _ _ Hin) as (v & Hv & Hl & _).
  exists v. auto.
Defined.

Lemma Flush_hands_over_what_it_drains_witness :
  let c := client_with 2 ∅ {["a" := [[x61]; [x62]]]} false in
  let F := Flush url_ok (respond 503) ["a"] c in
  queue (buffer c) "a" <> [] /\
  queue (buffer (flush_client F)) "a" = [] /\
  exists req,
    req ∈ flush_sent F /\ Body req = bytes_Join (queue (buffer c) "a") nl /\ group_of req = "a".
Proof.
  cbv zeta.
  assert (Hne : queue (buffer (client_with 2 ∅ {["a" := [[x61]; [x62]]]} false)) "a" <> [])
    by (vm_compute; discriminate).
  assert (Hemp : queue (buffer (flush_client (Flush url_ok (respond 503) ["a"]
                    (client_with 2 ∅ {["a" := [[x61]; [x62]]]} false)))) "a" = [])
    by (vm_compute; reflexivity).
  split; [exact Hne|]. split; [exact Hemp|].
  destruct (Flush_hands_over_what_it_drains url_ok (respond 503) ["a"] _ "a" Hne Hemp)
    as [Hurl|H]; [by destruct Hurl|exact H].
Defined.

End loggly.
